(** * Kili03/tetris: the game-state engine of [main.py], embedded in Rocq

    Python integers are [Z]; tuples and lists are [list]; an [IndexError]
    raised by a subscript is the [Raise IndexError] outcome of the [result]
    monad; the [while] loop of [clear_full_rows] is driven by fuel and a
    run that exhausts it ends in [OutOfFuel]; the outcomes of
    [random.choice] are arguments of the functions that draw them. *)

From Stdlib Require Import ZArith Lia DecimalString DecimalZ.
From stdpp Require Import base decidable option list list_numbers numbers strings gmap.

Local Open Scope Z_scope.

(** ** Outcomes of a Python call *)

Inductive exn : Type :=
  | IndexError
  | FileNotFoundError
  | PermissionError
  | UnicodeDecodeError
  | JSONDecodeError.

Inductive result (A : Type) : Type :=
  | Done (a : A)
  | Raise (e : exn)
  | OutOfFuel.
Arguments Done {A} a.
Arguments Raise {A} e.
Arguments OutOfFuel {A}.

Definition bind {A B : Type} (m : result A) (f : A -> result B) : result B :=
  match m with
  | Done a => f a
  | Raise e => Raise e
  | OutOfFuel => OutOfFuel
  end.

Notation "x <- m ; k" := (bind m (fun x => k))
  (at level 20, m at level 100, k at level 200, only parsing).
Notation "' pat <- m ; k" := (bind m (fun x => match x with pat => k end))
  (at level 20, pat pattern, m at level 100, k at level 200, only parsing).

(** ** Python sequences *)

(** [l[i]]: a negative subscript counts from the end, anything outside
    [-len, len) raises. *)
Definition py_index {A : Type} (l : list A) (i : Z) : result A :=
  let n := Z.of_nat (length l) in
  let j := if i <? 0 then i + n else i in
  if (0 <=? j) && (j <? n) then
    match l !! Z.to_nat j with
    | Some a => Done a
    | None => Raise IndexError
    end
  else Raise IndexError.

(** [l[i] = v], same subscript rule. *)
Definition py_setitem {A : Type} (l : list A) (i : Z) (v : A) : result (list A) :=
  let n := Z.of_nat (length l) in
  let j := if i <? 0 then i + n else i in
  if (0 <=? j) && (j <? n) then Done (<[Z.to_nat j := v]> l)
  else Raise IndexError.

(** [range(lo, hi)] *)
Definition py_range (lo hi : Z) : list Z := seqZ lo (hi - lo).

(** [for a in l: s = body(s, a)] *)
Fixpoint for_each {A St : Type} (body : St -> A -> result St) (s : St) (l : list A)
  : result St :=
  match l with
  | [] => Done s
  | a :: l' => s' <- body s a; for_each body s' l'
  end.

(** The objects of a list next to their positions in it, from [k] on. *)
Fixpoint enumerate {A : Type} (k : nat) (l : list A) : list (nat * A) :=
  match l with
  | [] => []
  | a :: l' => (k, a) :: enumerate (S k) l'
  end.

(** [for a in l: if body(a): return True] followed by [return False] *)
Fixpoint for_any {A : Type} (body : A -> result bool) (l : list A) : result bool :=
  match l with
  | [] => Done false
  | a :: l' => b <- body a; if b then Done true else for_any body l'
  end.

(** [for a in l: if not body(a): return False] followed by [return True] *)
Fixpoint for_all {A : Type} (body : A -> result bool) (l : list A) : result bool :=
  match l with
  | [] => Done true
  | a :: l' => b <- body a; if b then for_all body l' else Done false
  end.

(** ** constants.py *)

Definition WIDTH : Z := 13.
Definition HEIGHT : Z := 21.
Definition POINTS_PER_FULL_ROW : Z := 10.

(** The key codes of curses. *)
Definition KEY_DOWN : Z := 258.
Definition KEY_UP : Z := 259.
Definition KEY_LEFT : Z := 260.
Definition KEY_RIGHT : Z := 261.

Definition ARROW_KEYS : list Z := [KEY_UP; KEY_DOWN; KEY_LEFT; KEY_RIGHT].

Module TetrisBlockShape.
Inductive t : Type := I | J | L | O | S | T | Z.
End TetrisBlockShape.

(** A block mask is a tuple of 16 booleans. *)
Abbreviation BlockMask := (list bool).

Definition BLOCK_MASKS (shape_type : TetrisBlockShape.t) : BlockMask :=
  match shape_type with
  | TetrisBlockShape.I =>
      [false; false; false; false;
       true; true; true; true;
       false; false; false; false;
       false; false; false; false]
  | TetrisBlockShape.J =>
      [false; false; false; false;
       false; true; false; false;
       false; true; true; true;
       false; false; false; false]
  | TetrisBlockShape.L =>
      [false; false; false; false;
       false; false; true; false;
       true; true; true; false;
       false; false; false; false]
  | TetrisBlockShape.O =>
      [false; false; false; false;
       false; true; true; false;
       false; true; true; false;
       false; false; false; false]
  | TetrisBlockShape.S =>
      [false; false; false; false;
       false; true; true; false;
       true; true; false; false;
       false; false; false; false]
  | TetrisBlockShape.T =>
      [false; false; false; false;
       false; true; false; false;
       true; true; true; false;
       false; false; false; false]
  | TetrisBlockShape.Z =>
      [false; false; false; false;
       true; true; false; false;
       false; true; true; false;
       false; false; false; false]
  end.

Definition BLOCK_COLORS (shape_type : TetrisBlockShape.t) : Z :=
  match shape_type with
  | TetrisBlockShape.I => 1
  | TetrisBlockShape.J => 2
  | TetrisBlockShape.L => 3
  | TetrisBlockShape.O => 4
  | TetrisBlockShape.S => 5
  | TetrisBlockShape.T => 6
  | TetrisBlockShape.Z => 7
  end.

(** ** The records of custom_types, as main.py constructs and reads them *)

Module Vector2.
Record t : Type := mk { x : Z; y : Z }.
End Vector2.

Record BoundingBox : Type := mkBoundingBox {
  min_x : Z; max_x : Z; min_y : Z; max_y : Z
}.

Record TetrisBlock : Type := mkTetrisBlock {
  position : Vector2.t;
  block : BlockMask;
  color : Z
}.

Record GameContext : Type := mkGameContext {
  points : Z;
  paused : bool;
  game_started : bool;
  shapes : list TetrisBlock;
  next_shape : TetrisBlock;
  highscore : Z;
  level : Z;
  cleared_rows : Z
}.

(** ** main.py *)

Definition index_bm (x y : Z) : Z := 4 * y + (3 - x).

(** *** Collision check *)

Definition get_shape_bounds (position : Vector2.t) : BoundingBox :=
  mkBoundingBox (Vector2.x position) (Vector2.x position + 4)
                (Vector2.y position) (Vector2.y position + 4).

Definition get_intersection_area (box_a box_b : BoundingBox) : BoundingBox :=
  mkBoundingBox
    (Z.max (min_x box_a) (min_x box_b))
    (Z.min (max_x box_a) (max_x box_b))
    (Z.max (min_y box_a) (min_y box_b))
    (Z.min (max_y box_a) (max_y box_b)).

Definition check_collision (intersection : BoundingBox) (shape_a shape_b : TetrisBlock)
  : result bool :=
  for_any (fun x =>
    for_any (fun y =>
      val_a <- py_index (block shape_a)
                (index_bm (x - Vector2.x (position shape_a)) (y - Vector2.y (position shape_a)));
      if negb val_a then Done false else
      val_b <- py_index (block shape_b)
                (index_bm (x - Vector2.x (position shape_b)) (y - Vector2.y (position shape_b)));
      if negb val_b then Done false else
      Done true)
    (py_range (min_y intersection) (max_y intersection)))
  (py_range (min_x intersection) (max_x intersection)).

(** The last shape of the list is the moving one; it is compared with
    [shapes[i]] for [i] in [range(len(shapes) - 1)]. *)
Definition intersects_any (shapes : list TetrisBlock) : result bool :=
  current_shape <- py_index shapes (-1);
  let current_bb := get_shape_bounds (position current_shape) in
  for_any (fun i =>
    other_shape <- py_index shapes i;
    let other_bb := get_shape_bounds (position other_shape) in
    if (min_x current_bb >? max_x other_bb) || (max_x current_bb <? min_x other_bb)
    then Done false else
    if (min_y current_bb >? max_y other_bb) || (max_y current_bb <? min_y other_bb)
    then Done false else
    let intersection := get_intersection_area current_bb other_bb in
    check_collision intersection current_shape other_shape)
  (py_range 0 (Z.of_nat (length shapes) - 1)).

(** *** Handle full rows

    [cut_shapes] and [above_shapes] hold references to the objects of the
    list [shapes]; every shape of the game is a separate object, so a
    reference is the position of the shape in that list, and a mutation
    through a reference is an update of the list at that position. *)

Definition categorize_and_mark_shape (ref : nat) (shape : TetrisBlock)
    (cut_shapes above_shapes : list nat) (row_fill_mask : list bool) (row : Z)
  : result (list nat * list nat * list bool) :=
  if Vector2.y (position shape) >? row then
    Done (cut_shapes, above_shapes ++ [ref], row_fill_mask)
  else if Vector2.y (position shape) + 4 <=? row then
    Done (cut_shapes, above_shapes, row_fill_mask)
  else
    row_fill_mask' <- for_each (fun row_fill_mask x =>
        let col_idx := Vector2.x (position shape) + x in
        if negb ((0 <=? col_idx) && (col_idx <? WIDTH)) then Done row_fill_mask else
        v <- py_index (block shape) (index_bm x (row - Vector2.y (position shape)));
        if v then py_setitem row_fill_mask col_idx true else Done row_fill_mask)
      row_fill_mask (py_range 0 4);
    Done (cut_shapes ++ [ref], above_shapes, row_fill_mask').

Definition shift_down (shape : TetrisBlock) : TetrisBlock :=
  mkTetrisBlock
    (Vector2.mk (Vector2.x (position shape)) (Vector2.y (position shape) - 1))
    (block shape) (color shape).

Definition move_shapes_down (store : list TetrisBlock) (shapes : list nat) : list TetrisBlock :=
  foldl (fun store ref => alter shift_down ref store) store shapes.

(** The mask that [remove_row_from_shapes] builds for one shape. *)
Definition remove_row (mask : BlockMask) (row_idx : Z) : result BlockMask :=
  for_each (fun new_block x =>
    for_each (fun new_block y =>
      if y <? row_idx then
        v <- py_index mask (index_bm x y);
        py_setitem new_block (index_bm x y) v
      else if y + 1 <? 4 then
        v <- py_index mask (index_bm x (y + 1));
        py_setitem new_block (index_bm x y) v
      else
        py_setitem new_block (index_bm x y) false)
    new_block (py_range 0 4))
  (replicate 16 false) (py_range 0 4).

Definition remove_row_from_shapes (store : list TetrisBlock) (shapes : list nat) (row : Z)
  : result (list TetrisBlock) :=
  for_each (fun store ref =>
    match store !! ref with
    | None => Raise IndexError
    | Some shape =>
        let row_idx := row - Vector2.y (position shape) in
        new_block <- remove_row (block shape) row_idx;
        Done (<[ref := mkTetrisBlock (position shape) new_block (color shape)]> store)
    end)
  store shapes.

(** One pass of the [for shape in shapes] loop of [clear_full_rows]. *)
Definition categorize_all (shapes : list TetrisBlock) (row : Z)
  : result (list nat * list nat * list bool) :=
  for_each (fun '(cut_shapes, above_shapes, is_column_filled) '(ref, shape) =>
      categorize_and_mark_shape ref shape cut_shapes above_shapes is_column_filled row)
    ([], [], replicate (Z.to_nat WIDTH) false)
    (enumerate 0 shapes).

(** The [while row < HEIGHT] loop; the list is mutated in place, so the
    final list is returned next to the count. *)
Fixpoint clear_full_rows_loop (fuel : nat) (shapes : list TetrisBlock)
    (row number_cleared_rows : Z) : result (Z * list TetrisBlock) :=
  if negb (row <? HEIGHT) then Done (number_cleared_rows, shapes) else
  match fuel with
  | O => OutOfFuel
  | S fuel' =>
      '(cut_shapes, above_shapes, is_column_filled) <- categorize_all shapes row;
      if negb (forallb id is_column_filled) then
        clear_full_rows_loop fuel' shapes (row + 1) number_cleared_rows
      else
        let shapes := move_shapes_down shapes above_shapes in
        shapes <- remove_row_from_shapes shapes cut_shapes row;
        clear_full_rows_loop fuel' shapes row (number_cleared_rows + 1)
  end.

Definition clear_full_rows (fuel : nat) (shapes : list TetrisBlock)
  : result (Z * list TetrisBlock) :=
  clear_full_rows_loop fuel shapes 0 0.

(** *** Manage shapes *)

(** [shape_type] is what [random.choice] returned. *)
Definition get_new_shape (shape_type : TetrisBlockShape.t) : TetrisBlock :=
  mkTetrisBlock
    (Vector2.mk (WIDTH `div` 2 - 2) (HEIGHT - 4))
    (BLOCK_MASKS shape_type)
    (BLOCK_COLORS shape_type).

Definition spawn_shape (context : GameContext) (shape_type : TetrisBlockShape.t)
  : GameContext :=
  mkGameContext (points context) (paused context) (game_started context)
    (shapes context ++ [next_shape context])
    (get_new_shape shape_type)
    (highscore context) (level context) (cleared_rows context).

Definition rotate_shape (mask : BlockMask) : result BlockMask :=
  for_each (fun result x =>
    for_each (fun result y =>
      v <- py_index mask (index_bm x y);
      py_setitem result (index_bm y (3 - x)) v)
    result (py_range 0 4))
  (replicate 16 false) (py_range 0 4).

Definition move_shape (shape : TetrisBlock) (key : Z) : result TetrisBlock :=
  if key =? KEY_LEFT then
    Done (mkTetrisBlock
            (Vector2.mk (Vector2.x (position shape) - 1) (Vector2.y (position shape)))
            (block shape) (color shape))
  else if key =? KEY_RIGHT then
    Done (mkTetrisBlock
            (Vector2.mk (Vector2.x (position shape) + 1) (Vector2.y (position shape)))
            (block shape) (color shape))
  else if key =? KEY_UP then
    new_block <- rotate_shape (block shape);
    Done (mkTetrisBlock (position shape) new_block (color shape))
  else if key =? KEY_DOWN then
    Done (mkTetrisBlock
            (Vector2.mk (Vector2.x (position shape)) (Vector2.y (position shape) - 1))
            (block shape) (color shape))
  else Done shape.

Definition is_in_bounds (shape : TetrisBlock) : result bool :=
  for_all (fun x =>
    for_all (fun y =>
      v <- py_index (block shape) (index_bm x y);
      if negb v then Done true else
      if (Vector2.x (position shape) + x <? 0)
         || (Vector2.x (position shape) + x >=? WIDTH)
         || (Vector2.y (position shape) + y <? 0)
      then Done false
      else Done true)
    (py_range 0 4))
  (py_range 0 4).

(** *** Manage level and points *)

Definition points_factor (num_cleared_rows : Z) : Z :=
  if num_cleared_rows =? 1 then 1
  else if num_cleared_rows =? 2 then 3
  else if num_cleared_rows =? 3 then 5
  else if num_cleared_rows =? 4 then 8
  else 0.

Definition update_points (context : GameContext) (num_cleared_rows : Z) : GameContext :=
  let factor := points_factor num_cleared_rows in
  mkGameContext
    (points context + factor * POINTS_PER_FULL_ROW * (level context + 1))
    (paused context) (game_started context) (shapes context) (next_shape context)
    (highscore context) (level context) (cleared_rows context).

Definition update_level (context : GameContext) (num_cleared_rows : Z) : GameContext :=
  let cleared_rows' := cleared_rows context + num_cleared_rows in
  mkGameContext (points context) (paused context) (game_started context)
    (shapes context) (next_shape context) (highscore context)
    (cleared_rows' `div` 10) cleared_rows'.

(** *** The session *)

Definition with_shapes (context : GameContext) (shapes' : list TetrisBlock) : GameContext :=
  mkGameContext (points context) (paused context) (game_started context)
    shapes' (next_shape context) (highscore context) (level context)
    (cleared_rows context).

(** Assignment through the reference [shape = context.shapes[-1]]. *)
Definition set_last (shapes : list TetrisBlock) (shape : TetrisBlock) : list TetrisBlock :=
  <[pred (length shapes) := shape]> shapes.

Definition reset_game (context : GameContext) (shape_type : TetrisBlockShape.t)
  : GameContext :=
  let context := mkGameContext 0 (paused context) (game_started context)
                   [] (next_shape context) (highscore context) (level context)
                   (cleared_rows context) in
  let context := spawn_shape context shape_type in
  mkGameContext (points context) (paused context) false
    (shapes context) (next_shape context) (highscore context) 0 0.

(** [shape_type_1] is drawn by the [spawn_shape] of the settling block,
    [shape_type_2] by the one of [reset_game]. *)
Definition frame (fuel : nat) (key : Z) (context : GameContext)
    (shape_type_1 shape_type_2 : TetrisBlockShape.t) : result GameContext :=
  if negb (existsb (Z.eqb key) ARROW_KEYS) then Done context else
  shape <- py_index (shapes context) (-1);
  let old_pos := position shape in
  let old_block := block shape in
  let left_right_up := existsb (Z.eqb key) [KEY_LEFT; KEY_RIGHT; KEY_UP] in
  shape <- move_shape shape key;
  let context := with_shapes context (set_last (shapes context) shape) in
  in_bounds <- is_in_bounds shape;
  let out_of_bounds := negb in_bounds in
  collides <- intersects_any (shapes context);
  if out_of_bounds || collides then
    let shape := mkTetrisBlock old_pos old_block (color shape) in
    let context := with_shapes context (set_last (shapes context) shape) in
    if negb left_right_up then
      '(num_deleted_rows, shapes') <- clear_full_rows fuel (shapes context);
      let context := with_shapes context shapes' in
      let context := update_points context num_deleted_rows in
      let context := update_level context num_deleted_rows in
      let context := spawn_shape context shape_type_1 in
      let context :=
        mkGameContext (points context) (paused context) (game_started context)
          (shapes context) (next_shape context)
          (Z.max (points context) (highscore context))
          (level context) (cleared_rows context) in
      collides <- intersects_any (shapes context);
      if collides then Done (reset_game context shape_type_2) else Done context
    else Done context
  else
    Done context.

(** *** Stats

    [stats.json] is the only file touched. Its state is what [open] meets:
    no file, a file that the process may not open, or the bytes of the
    file. [open] works in text mode: [encode] and [decode] are the codec
    of the locale, and [decode] raises UnicodeDecodeError on bytes that
    are no text in it. The [json] module is a library outside the
    repository: its two functions are parameters, and [json_load] raises
    JSONDecodeError on a text that is no JSON document. *)

Inductive stats_file : Type :=
  | Missing
  | Denied
  | Content (bytes : list Byte.byte).

Definition DEFAULT_STATS : gmap string Z := {[ "highscore" := 0 ]}.

Definition open_read (file : stats_file) : result (list Byte.byte) :=
  match file with
  | Content bytes => Done bytes
  | Missing => Raise FileNotFoundError
  | Denied => Raise PermissionError
  end.

Section Stats.
Variable encode : string -> list Byte.byte.
Variable decode : list Byte.byte -> result string.
Variable json_dump : gmap string Z -> string.
Variable json_load : string -> result (gmap string Z).

(** Only the two exceptions named by the [except] clauses are caught. *)
Definition load_stats (file : stats_file) : result (gmap string Z) :=
  match bytes <- open_read file; text <- decode bytes; json_load text with
  | Raise FileNotFoundError => Done DEFAULT_STATS
  | Raise JSONDecodeError => Done DEFAULT_STATS
  | outcome => outcome
  end.

Definition save_stats (stats : gmap string Z) (file : stats_file) : result stats_file :=
  match file with
  | Denied => Raise PermissionError
  | Missing | Content _ => Done (Content (encode (json_dump stats)))
  end.
End Stats.

(** [stats.get("highscore", 0)], as [main] reads the loaded record. *)
Definition get_highscore (stats : gmap string Z) : Z :=
  default 0 (stats !! "highscore").

(** The record [quit_game] saves. *)
Definition stats_of (highscore : Z) : gmap string Z := {[ "highscore" := highscore ]}.

(** *** The game loop

    One pass of the [while True] of [run_game], without the drawing and the
    sleep. [due] is the outcome of the test
    [time.time() - last_time >= update_frequency], made after the first
    [frame] from the clock and the rows cleared so far. [sys.exit(0)] ends
    the pass with the file that [quit_game] has written; an exception of
    [save_stats] ends it before. *)

Definition ord_q : Z := 113.
Definition ord_p : Z := 112.

Section Loop.
Variable encode : string -> list Byte.byte.
Variable decode : list Byte.byte -> result string.
Variable json_dump : gmap string Z -> string.
Variable json_load : string -> result (gmap string Z).

Definition quit_game (context : GameContext) (file : stats_file) : result stats_file :=
  save_stats encode json_dump {[ "highscore" := highscore context ]} file.

Definition run_game_pass (fuel : nat) (key : Z) (due : GameContext -> bool)
    (context : GameContext) (file : stats_file)
    (shape_type_1 shape_type_2 shape_type_3 shape_type_4 : TetrisBlockShape.t)
  : result (GameContext + stats_file) :=
  if key =? ord_q then (file <- quit_game context file; Done (inr file)) else
  let context :=
    if key =? ord_p then
      mkGameContext (points context) (negb (paused context)) (game_started context)
        (shapes context) (next_shape context) (highscore context) (level context)
        (cleared_rows context)
    else context in
  let context :=
    if existsb (Z.eqb key) ARROW_KEYS then
      mkGameContext (points context) (paused context) true
        (shapes context) (next_shape context) (highscore context) (level context)
        (cleared_rows context)
    else context in
  if negb (paused context) && game_started context then
    context <- frame fuel key context shape_type_1 shape_type_2;
    if due context then
      context <- frame fuel KEY_DOWN context shape_type_3 shape_type_4;
      Done (inl context)
    else Done (inl context)
  else Done (inl context).

End Loop.

(** *** Draw functions

    The screen is the list of the [addstr] calls made on it: row, column
    and colour pair; every call writes BLOCK_SYMBOL. *)

Definition BLOCK_WIDTH : Z := 2.

Definition draw_borders : list (Z * Z * Z) :=
  let screen :=
    foldl (fun screen x =>
             screen ++ [(0, x * BLOCK_WIDTH, 7); (HEIGHT + 1, x * BLOCK_WIDTH, 7)])
          [] (py_range 0 (WIDTH + 2)) in
  foldl (fun screen y =>
           screen ++ [(y, 0, 7); (y, BLOCK_WIDTH * (WIDTH + 1), 7)])
        screen (py_range 1 (HEIGHT + 1)).

Definition draw_shape (position : Vector2.t) (block : BlockMask) (color : Z)
  : result (list (Z * Z * Z)) :=
  for_each (fun screen x =>
    for_each (fun screen y =>
      v <- py_index block (index_bm x y);
      if negb v then Done screen else
      Done (screen ++ [(HEIGHT - (Vector2.y position + y),
                        BLOCK_WIDTH * (Vector2.x position + x + 1),
                        color)]))
    screen (py_range 0 4))
  [] (py_range 0 4).

(** * Vocabulary of the properties *)

(** ** Well-formed masks, cells and counts *)

(** A [BlockMask] has 16 cells. *)
Definition wf_mask (mask : BlockMask) : Prop := length mask = 16%nat.

Definition wf_shape (shape : TetrisBlock) : Prop := wf_mask (block shape).

Ltac destruct_mask m H :=
  unfold wf_shape, wf_mask in H;
  do 16 (destruct m as [|? m]; [discriminate H|]);
  destruct m; [clear H|discriminate H].

Ltac case_coord x H :=
  let E := fresh "E" in
  assert (E : x = 0 \/ x = 1 \/ x = 2 \/ x = 3) by lia;
  clear H; destruct E as [E|[E|[E|E]]]; subst x.

(** The cell of a mask at local (x, y); [false] where the subscript raises. *)
Definition cell (mask : BlockMask) (x y : Z) : bool :=
  match py_index mask (index_bm x y) with
  | Done v => v
  | _ => false
  end.

(** The shape has an occupied cell at board coordinate (cx, cy). *)
Definition occupies (shape : TetrisBlock) (cx cy : Z) : bool :=
  let lx := cx - Vector2.x (position shape) in
  let ly := cy - Vector2.y (position shape) in
  (0 <=? lx) && (lx <? 4) && (0 <=? ly) && (ly <? 4) && cell (block shape) lx ly.

(** The occupied cells of a mask, and of all the shapes of a list. *)
Definition count_cells (mask : list bool) : nat := sum_list_with Nat.b2n mask.

Definition total_cells (shapes : list TetrisBlock) : nat :=
  sum_list_with (fun shape => count_cells (block shape)) shapes.

(** The occupied cells of the local row [y] of a mask. *)
Definition row_cells (mask : BlockMask) (y : Z) : nat :=
  sum_list_with (fun x => Nat.b2n (cell mask x y)) (py_range 0 4).

(** ** Bounding boxes *)

(** A board cell lies inside a bounding box; a point lies on it. *)
Definition cell_in_box (box : BoundingBox) (cx cy : Z) : Prop :=
  min_x box <= cx < max_x box /\ min_y box <= cy < max_y box.

Definition point_on_box (box : BoundingBox) (px py : Z) : Prop :=
  min_x box <= px <= max_x box /\ min_y box <= py <= max_y box.

Definition boxes_touch (box_a box_b : BoundingBox) : Prop :=
  (exists px py, point_on_box box_a px py /\ point_on_box box_b px py)
  /\ forall cx cy, ~ (cell_in_box box_a cx cy /\ cell_in_box box_b cx cy).

(** Two I pieces side by side: the boxes share the edge x = 4. *)
Definition left_I : TetrisBlock :=
  mkTetrisBlock (Vector2.mk 0 0) (BLOCK_MASKS TetrisBlockShape.I) 1.

Definition right_I : TetrisBlock :=
  mkTetrisBlock (Vector2.mk 4 0) (BLOCK_MASKS TetrisBlockShape.I) 1.

(** ** The scan of a row, as functions of the list of shapes *)

(** The tests of [categorize_and_mark_shape]. *)
Definition is_above (row : Z) (shape : TetrisBlock) : bool :=
  Vector2.y (position shape) >? row.

Definition is_cut (row : Z) (shape : TetrisBlock) : bool :=
  negb (Vector2.y (position shape) >? row)
  && negb (Vector2.y (position shape) + 4 <=? row).

(** The references that the scan of [l] collects, [l] starting at [k]. *)
Fixpoint refs (P : TetrisBlock -> bool) (k : nat) (l : list TetrisBlock) : list nat :=
  match l with
  | [] => []
  | shape :: l' => if P shape then k :: refs P (S k) l' else refs P (S k) l'
  end.

(** The columns that [categorize_and_mark_shape] marks: for one local
    column, for one shape, for the list. *)
Definition mark_col (shape : TetrisBlock) (row : Z) (fill : list bool) (x : Z) : list bool :=
  let col_idx := Vector2.x (position shape) + x in
  if (0 <=? col_idx) && (col_idx <? WIDTH)
     && cell (block shape) x (row - Vector2.y (position shape))
  then <[Z.to_nat col_idx := true]> fill else fill.

Definition mark_shape (row : Z) (fill : list bool) (shape : TetrisBlock) : list bool :=
  if is_cut row shape then foldl (mark_col shape row) fill (py_range 0 4) else fill.

Definition mark_row (shapes : list TetrisBlock) (row : Z) (fill : list bool) : list bool :=
  foldl (mark_shape row) fill shapes.

(** The cells that a shape has in the board row, if it cuts it. *)
Definition cut_row_cells (row : Z) (shape : TetrisBlock) : nat :=
  if is_cut row shape then row_cells (block shape) (row - Vector2.y (position shape))
  else 0%nat.

(** Some shape occupies the board cell (col, row). *)
Definition occupied (shapes : list TetrisBlock) (col row : Z) : bool :=
  existsb (fun shape => occupies shape col row) shapes.

(** Every column of the board row is occupied. *)
Definition row_full (shapes : list TetrisBlock) (row : Z) : bool :=
  forallb (fun col => occupied shapes col row) (py_range 0 WIDTH).

(** A T piece at the spawn position above an I piece on the floor. *)
Definition two_pieces : list TetrisBlock :=
  [get_new_shape TetrisBlockShape.T;
   mkTetrisBlock (Vector2.mk 4 (-1)) (BLOCK_MASKS TetrisBlockShape.I) 1].

(** What clearing the board row [row] does to one shape. *)
Definition clear_shape (row : Z) (shape : TetrisBlock) : TetrisBlock :=
  if is_above row shape then shift_down shape
  else if is_cut row shape then
    match remove_row (block shape) (row - Vector2.y (position shape)) with
    | Done new_block => mkTetrisBlock (position shape) new_block (color shape)
    | _ => shape
    end
  else shape.

(** What [move_shapes_down] alone does to one shape. *)
Definition shift_above (row : Z) (shape : TetrisBlock) : TetrisBlock :=
  if is_above row shape then shift_down shape else shape.

(** Four I pieces lying side by side on the floor fill row 0. *)
Definition floor_of_I : list TetrisBlock :=
  [mkTetrisBlock (Vector2.mk 0 (-1)) (BLOCK_MASKS TetrisBlockShape.I) 1;
   mkTetrisBlock (Vector2.mk 4 (-1)) (BLOCK_MASKS TetrisBlockShape.I) 1;
   mkTetrisBlock (Vector2.mk 8 (-1)) (BLOCK_MASKS TetrisBlockShape.I) 1;
   mkTetrisBlock (Vector2.mk 12 (-1)) (BLOCK_MASKS TetrisBlockShape.I) 1].

(** ** The parts of [frame] *)

(** A session [frame] can run on: a non-empty list of shapes, masks of 16
    cells. *)
Definition wf_context (context : GameContext) : Prop :=
  shapes context <> [] /\ Forall wf_shape (shapes context)
  /\ wf_shape (next_shape context).

(** The move of [frame] and its validation: the moved shape, and whether
    it is in bounds and collides with no other shape. *)
Definition attempt (key : Z) (context : GameContext) : result (TetrisBlock * bool) :=
  shape <- py_index (shapes context) (-1);
  shape <- move_shape shape key;
  in_bounds <- is_in_bounds shape;
  collides <- intersects_any (set_last (shapes context) shape);
  Done (shape, in_bounds && negb collides).

(** The settling block of [frame]: its last [if]. *)
Definition settle (fuel : nat) (context : GameContext)
    (shape_type_1 shape_type_2 : TetrisBlockShape.t) : result GameContext :=
  '(num_deleted_rows, shapes') <- clear_full_rows fuel (shapes context);
  let context := with_shapes context shapes' in
  let context := update_points context num_deleted_rows in
  let context := update_level context num_deleted_rows in
  let context := spawn_shape context shape_type_1 in
  let context :=
    mkGameContext (points context) (paused context) (game_started context)
      (shapes context) (next_shape context)
      (Z.max (points context) (highscore context))
      (level context) (cleared_rows context) in
  collides <- intersects_any (shapes context);
  if collides then Done (reset_game context shape_type_2) else Done context.

(** Iterations that the loop of [clear_full_rows] never exceeds. *)
Definition enough_fuel (shapes : list TetrisBlock) : nat :=
  Z.to_nat HEIGHT + total_cells shapes `div` Z.to_nat WIDTH.

(** ** Sessions used as examples *)

Definition session (points highscore : Z) (shapes : list TetrisBlock)
    (next_shape : TetrisBlock) : GameContext :=
  mkGameContext points false true shapes next_shape highscore 0 0.

(** A T piece that has just been spawned on an empty board. *)
Definition falling : GameContext :=
  session 0 0 [get_new_shape TetrisBlockShape.T] (get_new_shape TetrisBlockShape.I).

(** A T piece whose lowest cell is on the floor. *)
Definition landed : GameContext :=
  session 0 0
    [mkTetrisBlock (Vector2.mk 4 (-1)) (BLOCK_MASKS TetrisBlockShape.T) 6]
    (get_new_shape TetrisBlockShape.I).

(** Two O pieces stacked up to the spawn position, the next one an O. *)
Definition stacked (points highscore : Z) : GameContext :=
  session points highscore
    [mkTetrisBlock (Vector2.mk 4 15) (BLOCK_MASKS TetrisBlockShape.O) 4;
     get_new_shape TetrisBlockShape.O]
    (get_new_shape TetrisBlockShape.O).

(** An I piece against the left wall. *)
Definition at_left_wall : GameContext :=
  session 0 0
    [mkTetrisBlock (Vector2.mk 0 5) (BLOCK_MASKS TetrisBlockShape.I) 1]
    (get_new_shape TetrisBlockShape.I).

(** ** Instances of the parameters of the stats

    The strict ASCII codec, as [open] uses it in the C locale, and a codec
    of decimal numerals in the place of [json]. *)

Definition encode_ascii (text : string) : list Byte.byte := String.list_byte_of_string text.

Definition decode_ascii (bytes : list Byte.byte) : result string :=
  if forallb (fun b => (Byte.to_N b <? 128)%N) bytes
  then Done (String.string_of_list_byte bytes)
  else Raise UnicodeDecodeError.

Definition decimal_dump (stats : gmap string Z) : string :=
  NilEmpty.string_of_int (Z.to_int (get_highscore stats)).

Definition decimal_load (text : string) : result (gmap string Z) :=
  match NilEmpty.int_of_string text with
  | Some d => Done (stats_of (Z.of_int d))
  | None => Raise JSONDecodeError
  end.

(** ** Vocabulary of the further properties *)

(** Two shapes occupy a common board cell. *)
Definition overlap (shape_a shape_b : TetrisBlock) : Prop :=
  exists cx cy, occupies shape_a cx cy = true /\ occupies shape_b cx cy = true.

(** A shape after an update has its colour and its column, and is not
    higher than before. *)
Definition keeps_place (shape shape' : TetrisBlock) : Prop :=
  color shape' = color shape
  /\ Vector2.x (position shape') = Vector2.x (position shape)
  /\ Vector2.y (position shape') <= Vector2.y (position shape).

(** A session in play: the active shape is inside the walls and on no
    other shape, and the next shape is a freshly generated one. *)
Definition playable (context : GameContext) : Prop :=
  (exists l current, shapes context = l ++ [current]
                     /\ is_in_bounds current = Done true)
  /\ intersects_any (shapes context) = Done false
  /\ exists shape_type, next_shape context = get_new_shape shape_type.

(** The calls of [draw_shape], cell by cell. *)
Definition shape_cells (position : Vector2.t) (block : BlockMask) (color : Z)
  : list (Z * Z * Z) :=
  flat_map (fun x =>
    flat_map (fun y =>
      if cell block x y
      then [(HEIGHT - (Vector2.y position + y),
             BLOCK_WIDTH * (Vector2.x position + x + 1), color)]
      else [])
    (py_range 0 4))
  (py_range 0 4).

(** * Properties *)

(** ** Subscripts and loops *)

Lemma py_index_in_range {A : Type} (l : list A) (i : Z) :
  0 <= i < Z.of_nat (length l) ->
  exists a, l !! Z.to_nat i = Some a /\ py_index l i = Done a.
Proof.
  intros Hi. unfold py_index.
  destruct (Z.ltb_spec i 0) as [?|_]; [lia|].
  destruct (Z.leb_spec 0 i) as [_|?]; [|lia].
  destruct (Z.ltb_spec i (Z.of_nat (length l))) as [_|?]; [|lia]. simpl.
  destruct (lookup_lt_is_Some_2 l (Z.to_nat i)) as [a Ha]; [lia|].
  exists a. by rewrite Ha.
Qed.

Lemma py_index_last {A : Type} (l : list A) (a : A) :
  py_index (l ++ [a]) (-1) = Done a.
Proof.
  unfold py_index. rewrite length_app. simpl length.
  change (-1 <? 0) with true. cbv iota.
  destruct (Z.leb_spec 0 (-1 + Z.of_nat (length l + 1))) as [_|?]; [|lia].
  destruct (Z.ltb_spec (-1 + Z.of_nat (length l + 1)) (Z.of_nat (length l + 1))) as [_|?];
    [|lia].
  simpl. replace (Z.to_nat (-1 + Z.of_nat (length l + 1))) with (length l) by lia.
  by rewrite list_lookup_middle.
Qed.

Lemma py_index_nil {A : Type} (i : Z) : py_index (@nil A) i = Raise IndexError.
Proof.
  unfold py_index. simpl length.
  destruct (i <? 0) eqn:E; [|destruct (Z.leb_spec 0 i), (Z.ltb_spec i (Z.of_nat 0)); simpl; reflexivity || lia].
  destruct (Z.leb_spec 0 (i + Z.of_nat 0)), (Z.ltb_spec (i + Z.of_nat 0) (Z.of_nat 0));
    simpl; reflexivity || lia.
Qed.

Lemma py_setitem_in_range {A : Type} (l : list A) (i : Z) (v : A) :
  0 <= i < Z.of_nat (length l) ->
  py_setitem l i v = Done (<[Z.to_nat i := v]> l).
Proof.
  intros Hi. unfold py_setitem.
  destruct (Z.ltb_spec i 0) as [?|_]; [lia|].
  destruct (Z.leb_spec 0 i) as [_|?]; [|lia].
  destruct (Z.ltb_spec i (Z.of_nat (length l))) as [_|?]; [|lia]. reflexivity.
Qed.

Lemma py_range_nil lo hi : hi <= lo -> py_range lo hi = [].
Proof.
  intros H. unfold py_range, seqZ.
  replace (Z.to_nat (hi - lo)) with 0%nat by lia. reflexivity.
Qed.

Lemma elem_of_py_range lo hi x : x ∈ py_range lo hi -> lo <= x < hi.
Proof. unfold py_range. rewrite elem_of_seqZ. lia. Qed.

Lemma py_range_4 : py_range 0 4 = [0; 1; 2; 3].
Proof. reflexivity. Qed.

(** A loop whose body never raises is a fold. *)
Lemma for_each_pure {A St : Type} (Q : St -> Prop) (f : St -> A -> St)
    (body : St -> A -> result St) (l : list A) (s : St) :
  Q s ->
  (forall s a, a ∈ l -> Q s -> body s a = Done (f s a) /\ Q (f s a)) ->
  for_each body s l = Done (foldl f s l) /\ Q (foldl f s l).
Proof.
  revert s. induction l as [|a l IH]; intros s Hs Hbody; [done|].
  destruct (Hbody s a) as [Ha HQ]; [by left|done|].
  simpl. rewrite Ha. simpl. apply IH; [done|].
  intros s' a' Hin. apply Hbody. by right.
Qed.

Lemma for_any_false {A : Type} (body : A -> result bool) (l : list A) :
  (forall a, a ∈ l -> body a = Done false) -> for_any body l = Done false.
Proof.
  induction l as [|a l IH]; intros H; [reflexivity|]. simpl.
  rewrite (H a) by (left). simpl. apply IH. intros b Hb. apply H. by right.
Qed.

(** ** Cells *)

Lemma py_index_cell (mask : BlockMask) (x y : Z) :
  wf_mask mask -> 0 <= x < 4 -> 0 <= y < 4 ->
  py_index mask (index_bm x y) = Done (cell mask x y).
Proof.
  intros Hm Hx Hy. unfold cell.
  destruct (py_index_in_range mask (index_bm x y)) as [a [_ ->]]; [|done].
  rewrite Hm. unfold index_bm. lia.
Qed.

(** ** Masks *)

Lemma BLOCK_MASKS_wf shape_type : wf_mask (BLOCK_MASKS shape_type).
Proof. destruct shape_type; reflexivity. Qed.

Lemma get_new_shape_wf shape_type : wf_shape (get_new_shape shape_type).
Proof. apply BLOCK_MASKS_wf. Qed.

Example rotate_shape_I :
  rotate_shape (BLOCK_MASKS TetrisBlockShape.I)
  = Done [false; false; true; false;
          false; false; true; false;
          false; false; true; false;
          false; false; true; false].
Proof. vm_compute. reflexivity. Qed.

(** C2: on a mask of 16 cells [rotate_shape] returns a mask, four
    applications in a row return the mask they started from, and one
    application stores the cell of local (x, y) in the slot
    [index_bm y (3 - x)] of the result. *)
Theorem rotate_shape_order_4 (m : BlockMask) :
  wf_mask m ->
  (m1 <- rotate_shape m; m2 <- rotate_shape m1; m3 <- rotate_shape m2; rotate_shape m3)
    = Done m
  /\ exists m', rotate_shape m = Done m' /\ wf_mask m'
     /\ forall x y, 0 <= x < 4 -> 0 <= y < 4 ->
          index_bm y (3 - x) = 4 * (3 - x) + (3 - y)
          /\ py_index m' (index_bm y (3 - x)) = py_index m (index_bm x y).
Proof.
  intros Hm. destruct_mask m Hm. split; [vm_compute; reflexivity|].
  eexists. split; [vm_compute; reflexivity|]. split; [reflexivity|].
  intros x y Hx Hy. split; [unfold index_bm; lia|].
  case_coord x Hx; case_coord y Hy; vm_compute; reflexivity.
Qed.

Lemma rotate_shape_order_4_witness :
  wf_mask (BLOCK_MASKS TetrisBlockShape.L)
  /\ (m1 <- rotate_shape (BLOCK_MASKS TetrisBlockShape.L); m2 <- rotate_shape m1;
      m3 <- rotate_shape m2; rotate_shape m3) = Done (BLOCK_MASKS TetrisBlockShape.L).
Proof.
  split; [reflexivity|].
  apply (rotate_shape_order_4 (BLOCK_MASKS TetrisBlockShape.L)). reflexivity.
Defined.

(** ** Collisions *)

Lemma check_collision_empty (intersection : BoundingBox) (shape_a shape_b : TetrisBlock) :
  max_x intersection <= min_x intersection \/ max_y intersection <= min_y intersection ->
  check_collision intersection shape_a shape_b = Done false.
Proof.
  intros [H|H]; unfold check_collision.
  - by rewrite (py_range_nil _ _ H).
  - apply for_any_false. intros x _. by rewrite (py_range_nil _ _ H).
Qed.

Lemma intersects_any_pair (other current : TetrisBlock) :
  intersects_any [other; current] =
    let current_bb := get_shape_bounds (position current) in
    let other_bb := get_shape_bounds (position other) in
    if (min_x current_bb >? max_x other_bb) || (max_x current_bb <? min_x other_bb)
    then Done false else
    if (min_y current_bb >? max_y other_bb) || (max_y current_bb <? min_y other_bb)
    then Done false else
    check_collision (get_intersection_area current_bb other_bb) current other.
Proof.
  unfold intersects_any.
  change (py_index [other; current] (-1)) with (Done current).
  change (py_range 0 (Z.of_nat (length [other; current]) - 1)) with [0].
  cbn [bind for_any].
  change (py_index [other; current] 0) with (Done other).
  cbn [bind].
  repeat (destruct (_ || _); [reflexivity|]).
  by destruct (check_collision _ _ _) as [[]| |].
Qed.

Lemma intersects_any_disjoint (a b : TetrisBlock) :
  (forall cx cy, ~ (cell_in_box (get_shape_bounds (position a)) cx cy
                    /\ cell_in_box (get_shape_bounds (position b)) cx cy)) ->
  intersects_any [a; b] = Done false.
Proof.
  intros Hno. rewrite intersects_any_pair. cbv zeta.
  repeat (destruct (_ || _); [reflexivity|]).
  apply check_collision_empty. unfold get_intersection_area, get_shape_bounds. simpl.
  destruct (position a) as [ax ay], (position b) as [bx by_]. simpl.
  specialize (Hno (Z.max ax bx) (Z.max ay by_)).
  unfold cell_in_box, get_shape_bounds in Hno. simpl in Hno. lia.
Qed.

Example intersects_any_overlap : intersects_any [left_I; left_I] = Done true.
Proof. vm_compute. reflexivity. Qed.

Example intersects_any_one_cell_apart :
  intersects_any
    [left_I; mkTetrisBlock (Vector2.mk 3 1) (BLOCK_MASKS TetrisBlockShape.I) 1]
  = Done false.
Proof. vm_compute. reflexivity. Qed.

(** C3: two shapes whose 4x4 bounding boxes share an edge or a corner but
    no board cell are not reported as colliding, whichever of the two is
    the active (last) one. *)
Theorem touching_boxes_do_not_collide (a b : TetrisBlock) :
  boxes_touch (get_shape_bounds (position a)) (get_shape_bounds (position b)) ->
  intersects_any [a; b] = Done false /\ intersects_any [b; a] = Done false.
Proof.
  intros [_ Hno]. split; apply intersects_any_disjoint; [done|].
  intros cx cy [? ?]. by apply (Hno cx cy).
Qed.

Lemma touching_boxes_do_not_collide_witness :
  boxes_touch (get_shape_bounds (position left_I)) (get_shape_bounds (position right_I))
  /\ intersects_any [left_I; right_I] = Done false
  /\ intersects_any [right_I; left_I] = Done false.
Proof.
  assert (H : boxes_touch (get_shape_bounds (position left_I))
                (get_shape_bounds (position right_I))).
  { split.
    - exists 4, 0. unfold point_on_box. simpl. lia.
    - intros cx cy. unfold cell_in_box. simpl. lia. }
  split; [exact H|]. exact (touching_boxes_do_not_collide left_I right_I H).
Defined.

(** ** Scoring *)

(** C5: [update_points] adds factor * 10 * (level + 1) to the points, the
    factor being 1, 3, 5, 8 for 1, 2, 3, 4 cleared rows and 0 otherwise,
    and changes nothing else; at level 0 that is 10, 30, 50, 80 and 0. *)
Theorem update_points_table (context : GameContext) (n : Z) :
  let factor :=
    if decide (n = 1) then 1 else if decide (n = 2) then 3
    else if decide (n = 3) then 5 else if decide (n = 4) then 8 else 0 in
  update_points context n
    = mkGameContext (points context + factor * 10 * (level context + 1))
        (paused context) (game_started context) (shapes context)
        (next_shape context) (highscore context) (level context)
        (cleared_rows context)
  /\ (let level_0 :=
        mkGameContext (points context) (paused context) (game_started context)
          (shapes context) (next_shape context) (highscore context) 0
          (cleared_rows context) in
      points (update_points level_0 1) = points context + 10
      /\ points (update_points level_0 2) = points context + 30
      /\ points (update_points level_0 3) = points context + 50
      /\ points (update_points level_0 4) = points context + 80
      /\ points (update_points level_0 0) = points context).
Proof.
  split.
  - unfold update_points, points_factor, POINTS_PER_FULL_ROW.
    repeat case_decide; subst; try reflexivity.
    repeat match goal with
           | H : n <> ?k |- _ => rewrite (proj2 (Z.eqb_neq n k) H); clear H
           end.
    reflexivity.
  - unfold update_points, points_factor, POINTS_PER_FULL_ROW. simpl. lia.
Qed.

(** ** Removing a row from a mask *)

Lemma remove_row_spec (mask : BlockMask) (row_idx : Z) :
  wf_mask mask -> 0 <= row_idx < 4 ->
  exists mask', remove_row mask row_idx = Done mask' /\ wf_mask mask'
    /\ (count_cells mask' + row_cells mask row_idx = count_cells mask)%nat.
Proof.
  intros Hm Hr. destruct_mask mask Hm.
  case_coord row_idx Hr; eexists; (split; [vm_compute; reflexivity|]);
    (split; [reflexivity|]);
    unfold count_cells, row_cells; rewrite py_range_4;
    cbn [sum_list_with]; unfold cell;
    repeat match goal with
           | |- context [py_index ?l (index_bm ?x ?y)] =>
               let v := eval vm_compute in (py_index l (index_bm x y)) in
               change (py_index l (index_bm x y)) with v
           end;
    cbv iota; change (Nat.b2n false) with 0%nat; lia.
Qed.

(** ** One scan of a row *)

Lemma mark_col_length shape row fill x :
  length (mark_col shape row fill x) = length fill.
Proof. unfold mark_col. destruct (_ && _); [apply length_insert|done]. Qed.

Lemma mark_shape_length row fill shape :
  length (mark_shape row fill shape) = length fill.
Proof.
  unfold mark_shape. destruct (is_cut row shape); [|done].
  rewrite py_range_4. simpl. by rewrite !mark_col_length.
Qed.

Lemma mark_row_length shapes row fill :
  length (mark_row shapes row fill) = length fill.
Proof.
  revert fill. induction shapes as [|shape l IH]; intros fill; [done|].
  unfold mark_row in *. simpl. by rewrite IH, mark_shape_length.
Qed.

Lemma categorize_and_mark_shape_spec ref shape cut above fill row :
  wf_shape shape -> length fill = Z.to_nat WIDTH ->
  categorize_and_mark_shape ref shape cut above fill row
  = Done (if is_cut row shape then cut ++ [ref] else cut,
          if is_above row shape then above ++ [ref] else above,
          mark_shape row fill shape).
Proof.
  intros Hwf Hlen. unfold categorize_and_mark_shape, mark_shape, is_cut, is_above.
  destruct (Z.gtb_spec (Vector2.y (position shape)) row) as [Ha|Ha]; [done|].
  destruct (Z.leb_spec (Vector2.y (position shape) + 4) row) as [Hb|Hb]; [done|].
  simpl negb. simpl andb. cbv iota.
  match goal with
  | |- context [for_each ?body fill ?l] =>
      destruct (for_each_pure (fun fill => length fill = Z.to_nat WIDTH)
                  (mark_col shape row) body l fill Hlen) as [-> _]; [|done]
  end.
  intros s x Hx Hs. split; [|by rewrite mark_col_length].
  cbv zeta. unfold mark_col.
  apply elem_of_py_range in Hx.
  destruct (Z.leb_spec 0 (Vector2.x (position shape) + x)); [|done].
  destruct (Z.ltb_spec (Vector2.x (position shape) + x) WIDTH); [|done].
  simpl negb. cbv iota. rewrite py_index_cell by (done || lia). simpl.
  destruct (cell _ _ _); [|done].
  apply py_setitem_in_range. rewrite Hs. unfold WIDTH in *. lia.
Qed.

Lemma categorize_all_from shapes row k cut above fill :
  Forall wf_shape shapes -> length fill = Z.to_nat WIDTH ->
  for_each (fun '(cut_shapes, above_shapes, is_column_filled) '(ref, shape) =>
      categorize_and_mark_shape ref shape cut_shapes above_shapes is_column_filled row)
    (cut, above, fill) (enumerate k shapes)
  = Done (cut ++ refs (is_cut row) k shapes, above ++ refs (is_above row) k shapes,
          mark_row shapes row fill).
Proof.
  intros Hwf. revert k cut above fill.
  induction Hwf as [|shape l Hshape _ IH]; intros k cut above fill Hlen.
  - simpl. by rewrite !app_nil_r.
  - simpl. rewrite categorize_and_mark_shape_spec by done. simpl.
    rewrite IH by (by rewrite mark_shape_length).
    unfold mark_row. simpl.
    destruct (is_cut row shape), (is_above row shape);
      by rewrite <- ?app_assoc.
Qed.

Lemma categorize_all_spec shapes row :
  Forall wf_shape shapes ->
  categorize_all shapes row
  = Done (refs (is_cut row) 0 shapes, refs (is_above row) 0 shapes,
          mark_row shapes row (replicate (Z.to_nat WIDTH) false)).
Proof.
  intros Hwf. unfold categorize_all.
  by rewrite categorize_all_from by (done || apply length_replicate).
Qed.

(** What a scan marks is occupied, and it marks no more columns than the
    cutting shapes have cells in the row. *)

Lemma count_cells_insert_true (fill : list bool) (i : nat) :
  (count_cells (<[i := true]> fill) <= count_cells fill + 1)%nat.
Proof.
  unfold count_cells. revert i. induction fill as [|b fill IH]; intros i; [simpl; lia|].
  destruct i as [|i]; simpl.
  - destruct b; simpl; lia.
  - specialize (IH i). lia.
Qed.

Lemma mark_col_count shape row fill x :
  (count_cells (mark_col shape row fill x)
   <= count_cells fill + Nat.b2n (cell (block shape) x (row - Vector2.y (position shape))))%nat.
Proof.
  unfold mark_col. destruct (_ <=? _), (_ <? _); simpl; try lia.
  destruct (cell _ _ _); simpl; [|lia].
  apply count_cells_insert_true.
Qed.

Lemma mark_shape_count row fill shape :
  (count_cells (mark_shape row fill shape) <= count_cells fill + cut_row_cells row shape)%nat.
Proof.
  unfold mark_shape, cut_row_cells, row_cells.
  destruct (is_cut row shape); [|lia].
  rewrite py_range_4. cbn [foldl sum_list_with].
  pose proof (mark_col_count shape row fill 0).
  pose proof (mark_col_count shape row (mark_col shape row fill 0) 1).
  pose proof (mark_col_count shape row
                (mark_col shape row (mark_col shape row fill 0) 1) 2).
  pose proof (mark_col_count shape row
                (mark_col shape row (mark_col shape row (mark_col shape row fill 0) 1) 2) 3).
  lia.
Qed.

Lemma mark_row_count shapes row fill :
  (count_cells (mark_row shapes row fill)
   <= count_cells fill + sum_list_with (cut_row_cells row) shapes)%nat.
Proof.
  revert fill. induction shapes as [|shape l IH]; intros fill; [simpl; lia|].
  unfold mark_row in *. simpl.
  specialize (IH (mark_shape row fill shape)).
  pose proof (mark_shape_count row fill shape). lia.
Qed.

Lemma mark_col_sound shape row fill x (c : nat) :
  0 <= x < 4 -> is_cut row shape = true ->
  mark_col shape row fill x !! c = Some true ->
  fill !! c = Some true \/ occupies shape (Z.of_nat c) row = true.
Proof.
  intros Hx Hcut. unfold mark_col.
  destruct (Z.leb_spec 0 (Vector2.x (position shape) + x)); [|by left].
  destruct (Z.ltb_spec (Vector2.x (position shape) + x) WIDTH); [|by left].
  simpl. destruct (cell _ _ _) eqn:Hcell; [|by left].
  destruct (decide (c = Z.to_nat (Vector2.x (position shape) + x))) as [->|Hne].
  - intros _. right. unfold occupies. rewrite Z2Nat.id by done.
    replace (Vector2.x (position shape) + x - Vector2.x (position shape)) with x by lia.
    rewrite Hcell. unfold is_cut in Hcut.
    destruct (Z.gtb_spec (Vector2.y (position shape)) row); [done|].
    destruct (Z.leb_spec (Vector2.y (position shape) + 4) row); [done|].
    repeat (apply andb_true_intro; split); try done; lia.
  - rewrite list_lookup_insert_ne by done. by left.
Qed.

Lemma mark_shape_sound row fill shape (c : nat) :
  mark_shape row fill shape !! c = Some true ->
  fill !! c = Some true \/ occupies shape (Z.of_nat c) row = true.
Proof.
  unfold mark_shape. destruct (is_cut row shape) eqn:Hcut; [|by left].
  rewrite py_range_4. cbn [foldl]. intros H.
  repeat (apply mark_col_sound in H as [H|H]; [|by right|lia|done]).
  by left.
Qed.

Lemma mark_row_sound shapes row fill (c : nat) :
  mark_row shapes row fill !! c = Some true ->
  fill !! c = Some true \/ exists shape, shape ∈ shapes /\ occupies shape (Z.of_nat c) row = true.
Proof.
  revert fill. induction shapes as [|shape l IH]; intros fill; [by left|].
  unfold mark_row in *. simpl. intros H.
  apply IH in H as [H|(s & Hs & Hocc)].
  - apply mark_shape_sound in H as [H|H]; [by left|].
    right. exists shape. split; [by left|done].
  - right. exists s. split; [by right|done].
Qed.

Lemma count_cells_replicate_false (n : nat) : count_cells (replicate n false) = 0%nat.
Proof. unfold count_cells. induction n; simpl; lia. Qed.

Lemma count_cells_all_true (fill : list bool) :
  forallb id fill = true -> count_cells fill = length fill.
Proof.
  unfold count_cells. induction fill as [|[] fill IH]; simpl; intros H; [done| |done].
  by rewrite IH.
Qed.

Lemma forallb_lookup_false (fill : list bool) (c : nat) :
  fill !! c = Some false -> forallb id fill = false.
Proof.
  revert c. induction fill as [|b fill IH]; intros [|c] H; simplify_eq/=; [done|].
  rewrite (IH c H). by destruct b.
Qed.

(** ** Boards without a full row *)

Lemma forallb_false_elem {A : Type} (f : A -> bool) (l : list A) :
  forallb f l = false -> exists a, a ∈ l /\ f a = false.
Proof.
  induction l as [|a l IH]; simpl; [done|].
  destruct (f a) eqn:Ha; simpl.
  - intros H. destruct (IH H) as (b & Hb & Hfb). exists b. split; [by right|done].
  - intros _. exists a. split; [by left|done].
Qed.

Lemma scan_not_full shapes row :
  row_full shapes row = false ->
  forallb id (mark_row shapes row (replicate (Z.to_nat WIDTH) false)) = false.
Proof.
  intros Hfull. apply forallb_false_elem in Hfull as (col & Hcol & Hocc).
  apply elem_of_py_range in Hcol.
  destruct (lookup_lt_is_Some_2 (mark_row shapes row (replicate (Z.to_nat WIDTH) false))
              (Z.to_nat col)) as [b Hb].
  { rewrite mark_row_length, length_replicate. lia. }
  destruct b; [|by apply forallb_lookup_false in Hb].
  apply mark_row_sound in Hb as [Hb|(shape & Hin & Hs)].
  - apply lookup_replicate in Hb as [? _]. done.
  - rewrite Z2Nat.id in Hs by lia.
    assert (occupied shapes col row = true); [|congruence].
    apply existsb_exists. exists shape. split; [by apply list_elem_of_In|done].
Qed.

Lemma clear_full_rows_loop_advance shapes fuel row n :
  Forall wf_shape shapes -> row < HEIGHT -> row_full shapes row = false ->
  clear_full_rows_loop (S fuel) shapes row n
  = clear_full_rows_loop fuel shapes (row + 1) n.
Proof.
  intros Hwf Hrow Hfull. cbn [clear_full_rows_loop].
  destruct (Z.ltb_spec row HEIGHT) as [_|?]; [|lia]. cbn [negb].
  rewrite categorize_all_spec by done. cbn [bind].
  by rewrite scan_not_full.
Qed.

Lemma clear_full_rows_loop_no_full_row shapes :
  Forall wf_shape shapes ->
  (forall row, 0 <= row < HEIGHT -> row_full shapes row = false) ->
  forall fuel row n, 0 <= row -> (Z.to_nat (HEIGHT - row) <= fuel)%nat ->
  clear_full_rows_loop fuel shapes row n = Done (n, shapes).
Proof.
  intros Hwf Hfull fuel. induction fuel as [|fuel IH]; intros row n Hrow Hfuel.
  - simpl. destruct (Z.ltb_spec row HEIGHT); [lia|done].
  - destruct (Z.ltb_spec row HEIGHT) as [Hlt|Hge].
    + rewrite clear_full_rows_loop_advance by auto. apply IH; lia.
    + simpl. destruct (Z.ltb_spec row HEIGHT); [lia|done].
Qed.

(** C4: on a list of shapes where no row of the board has every column
    occupied, [clear_full_rows] returns 0 and the list it leaves is the
    list it was given; a scan that finds its row not full goes on with the
    next row and the same shapes. *)
Theorem clear_full_rows_no_full_row (shapes : list TetrisBlock) (fuel : nat) :
  Forall wf_shape shapes ->
  (forall row, 0 <= row < HEIGHT -> row_full shapes row = false) ->
  (Z.to_nat HEIGHT <= fuel)%nat ->
  clear_full_rows fuel shapes = Done (0, shapes)
  /\ forall fuel' row n, row < HEIGHT -> row_full shapes row = false ->
       clear_full_rows_loop (S fuel') shapes row n
       = clear_full_rows_loop fuel' shapes (row + 1) n.
Proof.
  intros Hwf Hfull Hfuel. split.
  - apply clear_full_rows_loop_no_full_row; auto; lia.
  - intros. by apply clear_full_rows_loop_advance.
Qed.

Lemma clear_full_rows_no_full_row_witness :
  Forall wf_shape two_pieces
  /\ (forall row, 0 <= row < HEIGHT -> row_full two_pieces row = false)
  /\ clear_full_rows 21 two_pieces = Done (0, two_pieces).
Proof.
  assert (H1 : Forall wf_shape two_pieces)
    by (repeat (constructor; [reflexivity|]); constructor).
  assert (H2 : forall row, 0 <= row < HEIGHT -> row_full two_pieces row = false)
    by (intros row _; vm_compute; reflexivity).
  assert (H3 : (Z.to_nat HEIGHT <= 21)%nat) by (vm_compute; lia).
  split; [exact H1|]. split; [exact H2|].
  exact (proj1 (clear_full_rows_no_full_row two_pieces 21 H1 H2 H3)).
Defined.

(** ** Clearing a full row *)

Lemma is_cut_row_idx row shape :
  is_cut row shape = true ->
  is_above row shape = false /\ 0 <= row - Vector2.y (position shape) < 4.
Proof.
  unfold is_cut, is_above.
  destruct (Z.gtb_spec (Vector2.y (position shape)) row); [done|].
  destruct (Z.leb_spec (Vector2.y (position shape) + 4) row); [done|].
  intros _. split; [done|lia].
Qed.

Lemma move_shapes_down_refs row (pre l : list TetrisBlock) :
  move_shapes_down (pre ++ l) (refs (is_above row) (length pre) l)
  = pre ++ map (shift_above row) l.
Proof.
  unfold move_shapes_down. revert pre.
  induction l as [|shape l IH]; intros pre; [done|].
  simpl. unfold shift_above at 1.
  destruct (is_above row shape); simpl.
  - rewrite alter_app_r_alt by lia. rewrite Nat.sub_diag.
    change (alter shift_down 0%nat (shape :: l)) with (shift_down shape :: l).
    rewrite (cons_middle (shift_down shape)), app_assoc.
    replace (S (length pre)) with (length (pre ++ [shift_down shape]))
      by (rewrite length_app; simpl; lia).
    rewrite IH. by rewrite <- app_assoc.
  - rewrite (cons_middle shape), app_assoc.
    replace (S (length pre)) with (length (pre ++ [shape]))
      by (rewrite length_app; simpl; lia).
    rewrite IH. by rewrite <- app_assoc.
Qed.

Lemma remove_row_from_shapes_refs row (pre l : list TetrisBlock) :
  Forall wf_shape l ->
  remove_row_from_shapes (pre ++ map (shift_above row) l)
    (refs (is_cut row) (length pre) l) row
  = Done (pre ++ map (clear_shape row) l).
Proof.
  unfold remove_row_from_shapes. intros Hwf. revert pre.
  induction Hwf as [|shape l Hshape _ IH]; intros pre; [done|].
  simpl. unfold clear_shape at 1, shift_above at 1.
  destruct (is_cut row shape) eqn:Hcut.
  - destruct (is_cut_row_idx _ _ Hcut) as [-> Hidx].
    destruct (remove_row_spec (block shape) _ Hshape Hidx) as (m' & Hm' & _ & _).
    simpl. rewrite list_lookup_middle by done. rewrite Hm'. simpl.
    rewrite insert_app_r_alt by lia. rewrite Nat.sub_diag. simpl.
    rewrite (cons_middle (mkTetrisBlock _ _ _)), app_assoc.
    match goal with
    | |- context [pre ++ [?s]] =>
        replace (S (length pre)) with (length (pre ++ [s]))
          by (rewrite length_app; simpl; lia)
    end.
    rewrite IH. by rewrite <- app_assoc.
  - match goal with
    | |- context [pre ++ ?s :: map _ l] =>
        rewrite (cons_middle s), app_assoc;
        replace (S (length pre)) with (length (pre ++ [s]))
          by (rewrite length_app; simpl; lia)
    end.
    rewrite IH. rewrite <- app_assoc. simpl. by destruct (is_above row shape).
Qed.

Lemma clear_shape_wf row shape : wf_shape shape -> wf_shape (clear_shape row shape).
Proof.
  intros Hwf. unfold clear_shape.
  destruct (is_above row shape); [done|].
  destruct (is_cut row shape) eqn:Hcut; [|done].
  destruct (is_cut_row_idx _ _ Hcut) as [_ Hidx].
  by destruct (remove_row_spec (block shape) _ Hwf Hidx) as (m' & -> & Hm' & _).
Qed.

Lemma clear_shape_cells row shape :
  wf_shape shape ->
  (count_cells (block (clear_shape row shape)) + cut_row_cells row shape
   = count_cells (block shape))%nat.
Proof.
  intros Hwf. unfold clear_shape, cut_row_cells.
  destruct (is_cut row shape) eqn:Hcut.
  - destruct (is_cut_row_idx _ _ Hcut) as [-> Hidx].
    by destruct (remove_row_spec (block shape) _ Hwf Hidx) as (m' & -> & _ & Hm').
  - destruct (is_above row shape); simpl; lia.
Qed.

Lemma clear_shapes_cells row shapes :
  Forall wf_shape shapes ->
  (total_cells (map (clear_shape row) shapes) + sum_list_with (cut_row_cells row) shapes
   = total_cells shapes)%nat.
Proof.
  unfold total_cells. induction 1 as [|shape l Hshape _ IH]; [done|].
  simpl. pose proof (clear_shape_cells row shape Hshape). lia.
Qed.

Lemma full_scan_cells shapes row :
  Forall wf_shape shapes ->
  forallb id (mark_row shapes row (replicate (Z.to_nat WIDTH) false)) = true ->
  (total_cells (map (clear_shape row) shapes) + Z.to_nat WIDTH <= total_cells shapes)%nat.
Proof.
  intros Hwf Hfull.
  pose proof (clear_shapes_cells row shapes Hwf).
  pose proof (mark_row_count shapes row (replicate (Z.to_nat WIDTH) false)) as Hc.
  rewrite count_cells_replicate_false in Hc.
  rewrite (count_cells_all_true _ Hfull), mark_row_length, length_replicate in Hc.
  lia.
Qed.

Lemma clear_step shapes row :
  Forall wf_shape shapes ->
  remove_row_from_shapes (move_shapes_down shapes (refs (is_above row) 0 shapes))
    (refs (is_cut row) 0 shapes) row
  = Done (map (clear_shape row) shapes).
Proof.
  intros Hwf.
  pose proof (move_shapes_down_refs row [] shapes) as Hmove.
  pose proof (remove_row_from_shapes_refs row [] shapes Hwf) as Hremove.
  simpl in Hmove, Hremove. by rewrite Hmove, Hremove.
Qed.

Lemma clear_full_rows_loop_clear shapes fuel row n :
  Forall wf_shape shapes -> row < HEIGHT ->
  forallb id (mark_row shapes row (replicate (Z.to_nat WIDTH) false)) = true ->
  clear_full_rows_loop (S fuel) shapes row n
  = clear_full_rows_loop fuel (map (clear_shape row) shapes) row (n + 1)
  /\ (total_cells (map (clear_shape row) shapes) + Z.to_nat WIDTH
      <= total_cells shapes)%nat.
Proof.
  intros Hwf Hrow Hfull. split.
  - cbn [clear_full_rows_loop].
    destruct (Z.ltb_spec row HEIGHT) as [_|?]; [|lia]. cbn [negb].
    rewrite categorize_all_spec by done. cbn [bind]. rewrite Hfull. cbn [negb].
    by rewrite clear_step.
  - by apply full_scan_cells.
Qed.

(** ** Termination of the scan *)

Lemma clear_full_rows_loop_fuel_mono fuel :
  forall shapes row n r,
    clear_full_rows_loop fuel shapes row n = Done r ->
    forall fuel', (fuel <= fuel')%nat -> clear_full_rows_loop fuel' shapes row n = Done r.
Proof.
  induction fuel as [|fuel IH]; intros shapes row n r Hrun fuel' Hle.
  - simpl in Hrun. destruct fuel'; simpl; by destruct (row <? HEIGHT).
  - destruct fuel' as [|fuel']; [lia|].
    cbn [clear_full_rows_loop] in *.
    destruct (negb (row <? HEIGHT)); [done|].
    destruct (categorize_all shapes row) as [[[cut above] fill]| |]; [|done|done].
    cbn [bind] in *. destruct (negb (forallb id fill)).
    + apply IH with (fuel' := fuel') in Hrun; [done|lia].
    + destruct (remove_row_from_shapes _ _ _) as [shapes1| |]; [|done|done].
      cbn [bind] in *. apply IH with (fuel' := fuel') in Hrun; [done|lia].
Qed.

Lemma clear_full_rows_loop_terminates fuel :
  forall shapes row n,
    Forall wf_shape shapes ->
    (Z.to_nat (HEIGHT - row) + total_cells shapes `div` Z.to_nat WIDTH <= fuel)%nat ->
    exists (k : nat) shapes',
      clear_full_rows_loop fuel shapes row n = Done (n + Z.of_nat k, shapes')
      /\ Forall wf_shape shapes'
      /\ (k * Z.to_nat WIDTH + total_cells shapes' <= total_cells shapes)%nat.
Proof.
  induction fuel as [|fuel IH]; intros shapes row n Hwf Hfuel.
  - exists 0%nat, shapes. simpl.
    destruct (Z.ltb_spec row HEIGHT); [lia|].
    split; [f_equal; f_equal; lia|]. split; [done|lia].
  - destruct (Z.ltb_spec row HEIGHT) as [Hlt|Hge].
    + destruct (forallb id (mark_row shapes row (replicate (Z.to_nat WIDTH) false)))
        eqn:Hfull.
      * destruct (clear_full_rows_loop_clear shapes fuel row n Hwf Hlt Hfull) as [-> Hcells].
        destruct (IH (map (clear_shape row) shapes) row (n + 1)) as (k & shapes' & -> & Hwf' & Hk).
        { apply Forall_fmap. eapply Forall_impl; [exact Hwf|].
          intros shape. apply clear_shape_wf. }
        { change (Z.to_nat WIDTH) with 13%nat in *.
          assert (total_cells (map (clear_shape row) shapes) `div` 13 + 1
                  <= total_cells shapes `div` 13)%nat; [|lia].
          rewrite <- Nat.div_add by lia. apply Nat.Div0.div_le_mono. lia. }
        exists (S k), shapes'. split; [f_equal; f_equal; lia|]. split; [done|lia].
      * cbn [clear_full_rows_loop].
        destruct (Z.ltb_spec row HEIGHT) as [_|?]; [|lia]. cbn [negb].
        rewrite categorize_all_spec by done. cbn [bind]. rewrite Hfull. cbn [negb].
        apply IH; [done|lia].
    + exists 0%nat, shapes. simpl.
      destruct (Z.ltb_spec row HEIGHT); [lia|].
      split; [f_equal; f_equal; lia|]. split; [done|lia].
Qed.

(** C10: on shapes with masks of 16 cells [clear_full_rows] returns, with
    the same count and shapes for every amount of fuel from HEIGHT plus
    (occupied cells) / WIDTH on; the count is at most (occupied cells) /
    WIDTH, and every clearing of a full row leaves at least WIDTH fewer
    occupied cells in the list. *)
Theorem clear_full_rows_terminates (shapes : list TetrisBlock) :
  Forall wf_shape shapes ->
  (exists (n : nat) shapes',
      (forall fuel,
          (Z.to_nat HEIGHT + total_cells shapes `div` Z.to_nat WIDTH <= fuel)%nat ->
          clear_full_rows fuel shapes = Done (Z.of_nat n, shapes'))
      /\ (n <= total_cells shapes `div` Z.to_nat WIDTH)%nat
      /\ (n * Z.to_nat WIDTH + total_cells shapes' <= total_cells shapes)%nat)
  /\ forall row cut_shapes above_shapes is_column_filled,
       categorize_all shapes row = Done (cut_shapes, above_shapes, is_column_filled) ->
       forallb id is_column_filled = true ->
       exists shapes1,
         remove_row_from_shapes (move_shapes_down shapes above_shapes) cut_shapes row
         = Done shapes1
         /\ (total_cells shapes1 + Z.to_nat WIDTH <= total_cells shapes)%nat.
Proof.
  intros Hwf. split.
  - destruct (clear_full_rows_loop_terminates
                (Z.to_nat HEIGHT + total_cells shapes `div` Z.to_nat WIDTH)
                shapes 0 0 Hwf) as (n & shapes' & Hrun & _ & Hn).
    { rewrite Z.sub_0_r. lia. }
    exists n, shapes'. split; [|split; [|done]].
    + intros fuel Hfuel. unfold clear_full_rows.
      by apply (clear_full_rows_loop_fuel_mono _ _ _ _ _ Hrun).
    + change (Z.to_nat WIDTH) with 13%nat in *.
      apply Nat.div_le_lower_bound; lia.
  - intros row cut above fill Hscan Hfull.
    rewrite categorize_all_spec in Hscan by done.
    injection Hscan as <- <- <-.
    exists (map (clear_shape row) shapes). split.
    + by apply clear_step.
    + by apply full_scan_cells.
Qed.

Lemma floor_of_I_wf : Forall wf_shape floor_of_I.
Proof. repeat (constructor; [reflexivity|]). constructor. Qed.

Example clear_full_rows_floor_of_I :
  exists shapes', clear_full_rows 22 floor_of_I = Done (1, shapes')
                  /\ total_cells floor_of_I = 16%nat /\ total_cells shapes' = 0%nat.
Proof. eexists. vm_compute. repeat split. Qed.

Lemma clear_full_rows_terminates_witness :
  Forall wf_shape floor_of_I
  /\ exists (n : nat) shapes',
      (forall fuel,
          (Z.to_nat HEIGHT + total_cells floor_of_I `div` Z.to_nat WIDTH <= fuel)%nat ->
          clear_full_rows fuel floor_of_I = Done (Z.of_nat n, shapes'))
      /\ (n <= total_cells floor_of_I `div` Z.to_nat WIDTH)%nat
      /\ (n * Z.to_nat WIDTH + total_cells shapes' <= total_cells floor_of_I)%nat.
Proof.
  split; [exact floor_of_I_wf|].
  exact (proj1 (clear_full_rows_terminates floor_of_I floor_of_I_wf)).
Defined.

(** ** One frame *)

Lemma py_index_last_inv {A : Type} (l : list A) (a : A) :
  py_index l (-1) = Done a -> exists l', l = l' ++ [a].
Proof.
  destruct (decide (l = [])) as [->|Hne]; [by rewrite py_index_nil|].
  destruct (exists_last Hne) as (l' & a' & ->).
  rewrite py_index_last. intros [= ->]. by exists l'.
Qed.

Lemma set_last_app (l : list TetrisBlock) (a b : TetrisBlock) :
  set_last (l ++ [a]) b = l ++ [b].
Proof.
  unfold set_last. rewrite length_app. simpl.
  replace (pred (length l + 1)) with (length l + 0)%nat by lia.
  by rewrite insert_app_r.
Qed.

Lemma move_shape_color shape key moved :
  move_shape shape key = Done moved -> color moved = color shape.
Proof.
  unfold move_shape.
  destruct (key =? KEY_LEFT); [by intros [= <-]|].
  destruct (key =? KEY_RIGHT); [by intros [= <-]|].
  destruct (key =? KEY_UP).
  - destruct (rotate_shape _); simpl; [by intros [= <-]|done|done].
  - destruct (key =? KEY_DOWN); by intros [= <-].
Qed.

(** [frame] on an accepted key, by the outcome of the validation. *)
Lemma frame_arrow fuel key context shape_type_1 shape_type_2 moved valid :
  existsb (Z.eqb key) ARROW_KEYS = true ->
  attempt key context = Done (moved, valid) ->
  frame fuel key context shape_type_1 shape_type_2
  = if valid then Done (with_shapes context (set_last (shapes context) moved))
    else if key =? KEY_DOWN then settle fuel context shape_type_1 shape_type_2
    else Done context.
Proof.
  intros Hkey. unfold attempt, frame. rewrite Hkey. cbn [negb].
  destruct (py_index (shapes context) (-1)) as [shape| |] eqn:Hlast; [|done|done].
  cbn [bind].
  destruct (move_shape shape key) as [moved'| |] eqn:Hmove; [|done|done]. cbn [bind].
  destruct (is_in_bounds moved') as [in_bounds| |]; [|done|done]. cbn [bind shapes with_shapes].
  destruct (intersects_any _) as [collides| |]; [|done|done]. cbn [bind].
  intros [= -> <-].
  destruct (py_index_last_inv _ _ Hlast) as [l Hl].
  rewrite (move_shape_color _ _ _ Hmove).
  assert (Hrestore :
    set_last (set_last (shapes context) moved)
      (mkTetrisBlock (position shape) (block shape) (color shape)) = shapes context).
  { rewrite Hl, !set_last_app. by destruct shape. }
  rewrite Hrestore.
  replace (with_shapes (with_shapes context (set_last (shapes context) moved))
             (shapes context)) with context by (by destruct context).
  destruct in_bounds, collides; cbn [negb orb andb]; try reflexivity.
  all: unfold ARROW_KEYS in Hkey; cbn [existsb] in *.
  all: destruct (Z.eqb_spec key KEY_UP) as [->|?]; [reflexivity|].
  all: destruct (Z.eqb_spec key KEY_DOWN) as [->|?]; [reflexivity|].
  all: destruct (Z.eqb_spec key KEY_LEFT) as [->|?]; [reflexivity|].
  all: destruct (Z.eqb_spec key KEY_RIGHT) as [->|?]; [reflexivity|done].
Qed.

Lemma frame_other_key fuel key context shape_type_1 shape_type_2 :
  existsb (Z.eqb key) ARROW_KEYS = false ->
  frame fuel key context shape_type_1 shape_type_2 = Done context.
Proof. intros Hkey. unfold frame. by rewrite Hkey. Qed.

(** *** The calls of [frame] return *)

Lemma for_any_total {A : Type} (body : A -> result bool) (l : list A) :
  (forall a, a ∈ l -> exists b, body a = Done b) -> exists b, for_any body l = Done b.
Proof.
  induction l as [|a l IH]; intros H; [by exists false|].
  destruct (H a) as [b Hb]; [by left|]. simpl. rewrite Hb. simpl.
  destruct b; [by exists true|]. apply IH. intros a' Ha'. apply H. by right.
Qed.

Lemma for_all_total {A : Type} (body : A -> result bool) (l : list A) :
  (forall a, a ∈ l -> exists b, body a = Done b) -> exists b, for_all body l = Done b.
Proof.
  induction l as [|a l IH]; intros H; [by exists true|].
  destruct (H a) as [b Hb]; [by left|]. simpl. rewrite Hb. simpl.
  destruct b; [|by exists false]. apply IH. intros a' Ha'. apply H. by right.
Qed.

Lemma for_all_false {A : Type} (body : A -> result bool) (l : list A) (a : A) :
  (forall a, a ∈ l -> exists b, body a = Done b) ->
  a ∈ l -> body a = Done false -> for_all body l = Done false.
Proof.
  induction l as [|a' l IH]; intros H Hin Ha; [by apply elem_of_nil in Hin|].
  destruct (H a') as [b Hb]; [by left|]. simpl. rewrite Hb. simpl.
  destruct b; [|done].
  apply elem_of_cons in Hin as [->|Hin]; [congruence|].
  apply IH; [|done|done]. intros a'' Ha''. apply H. by right.
Qed.

Lemma rotate_shape_total (mask : BlockMask) :
  wf_mask mask -> exists mask', rotate_shape mask = Done mask' /\ wf_mask mask'.
Proof. intros Hm. destruct_mask mask Hm. eexists. split; [vm_compute|]; reflexivity. Qed.

Lemma move_shape_total shape key :
  wf_shape shape -> exists moved, move_shape shape key = Done moved /\ wf_shape moved.
Proof.
  intros Hwf. unfold move_shape.
  destruct (key =? KEY_LEFT); [by eexists|].
  destruct (key =? KEY_RIGHT); [by eexists|].
  destruct (key =? KEY_UP).
  - destruct (rotate_shape_total _ Hwf) as (m & -> & Hm). by eexists.
  - destruct (key =? KEY_DOWN); by eexists.
Qed.

Lemma is_in_bounds_cell shape x y :
  wf_shape shape -> 0 <= x < 4 -> 0 <= y < 4 ->
  (v <- py_index (block shape) (index_bm x y);
   if negb v then Done true else
   if (Vector2.x (position shape) + x <? 0)
      || (Vector2.x (position shape) + x >=? WIDTH)
      || (Vector2.y (position shape) + y <? 0)
   then Done false
   else Done true)
  = Done (negb (cell (block shape) x y
                && ((Vector2.x (position shape) + x <? 0)
                    || (Vector2.x (position shape) + x >=? WIDTH)
                    || (Vector2.y (position shape) + y <? 0)))).
Proof.
  intros Hwf Hx Hy. rewrite py_index_cell by done. simpl.
  destruct (cell _ _ _); simpl; [|done]. by destruct (_ || _).
Qed.

Lemma is_in_bounds_total shape :
  wf_shape shape -> exists b, is_in_bounds shape = Done b.
Proof.
  intros Hwf. apply for_all_total. intros x Hx%elem_of_py_range.
  apply for_all_total. intros y Hy%elem_of_py_range.
  rewrite is_in_bounds_cell by done. by eexists.
Qed.

(** An occupied cell beyond a side wall makes [is_in_bounds] false. *)
Lemma is_in_bounds_outside shape x y :
  wf_shape shape -> 0 <= x < 4 -> 0 <= y < 4 ->
  cell (block shape) x y = true ->
  Vector2.x (position shape) + x < 0 \/ Vector2.x (position shape) + x >= WIDTH ->
  is_in_bounds shape = Done false.
Proof.
  intros Hwf Hx Hy Hcell Hout.
  assert (Hrange : forall z, 0 <= z < 4 -> z ∈ py_range 0 4).
  { intros z Hz. unfold py_range. apply elem_of_seqZ. lia. }
  assert (Hrow : forall x', x' ∈ py_range 0 4 ->
    exists b, for_all (fun y =>
      v <- py_index (block shape) (index_bm x' y);
      if negb v then Done true else
      if (Vector2.x (position shape) + x' <? 0)
         || (Vector2.x (position shape) + x' >=? WIDTH)
         || (Vector2.y (position shape) + y <? 0)
      then Done false
      else Done true) (py_range 0 4) = Done b).
  { intros x' Hx'%elem_of_py_range. apply for_all_total.
    intros y' Hy'%elem_of_py_range. rewrite is_in_bounds_cell by done. by eexists. }
  unfold is_in_bounds. apply for_all_false with (a := x); [done|by apply Hrange|].
  apply for_all_false with (a := y); [|by apply Hrange|].
  - intros y' Hy'%elem_of_py_range. rewrite is_in_bounds_cell by done. by eexists.
  - rewrite is_in_bounds_cell by done. rewrite Hcell.
    destruct (Z.ltb_spec (Vector2.x (position shape) + x) 0); [done|].
    destruct (Z.geb_spec (Vector2.x (position shape) + x) WIDTH); [done|lia].
Qed.

Lemma check_collision_total (shape_a shape_b : TetrisBlock) :
  wf_shape shape_a -> wf_shape shape_b ->
  exists b,
    check_collision
      (get_intersection_area (get_shape_bounds (position shape_a))
         (get_shape_bounds (position shape_b)))
      shape_a shape_b = Done b.
Proof.
  intros Ha Hb. unfold check_collision. simpl.
  apply for_any_total. intros x Hx%elem_of_py_range.
  apply for_any_total. intros y Hy%elem_of_py_range.
  rewrite py_index_cell by (done || lia). simpl.
  destruct (cell (block shape_a) _ _); simpl; [|by eexists].
  rewrite py_index_cell by (done || lia). simpl.
  destruct (cell (block shape_b) _ _); by eexists.
Qed.

Lemma intersects_any_total (shapes : list TetrisBlock) :
  shapes <> [] -> Forall wf_shape shapes -> exists b, intersects_any shapes = Done b.
Proof.
  intros Hne Hwf. destruct (exists_last Hne) as (l & current & ->).
  unfold intersects_any. rewrite py_index_last. cbn [bind].
  apply Forall_app in Hwf as [Hl Hcur]. rewrite Forall_singleton in Hcur.
  apply for_any_total. intros i Hi%elem_of_py_range.
  rewrite length_app in Hi. simpl in Hi.
  destruct (py_index_in_range (l ++ [current]) i) as (other & Hlook & ->).
  { rewrite length_app. simpl. lia. }
  cbn [bind].
  rewrite lookup_app_l in Hlook by lia.
  assert (wf_shape other).
  { eapply Forall_lookup_1; [exact Hl|exact Hlook]. }
  repeat (destruct (_ || _); [by eexists|]).
  by apply check_collision_total.
Qed.

Lemma attempt_total key context :
  wf_context context ->
  exists moved valid, attempt key context = Done (moved, valid) /\ wf_shape moved.
Proof.
  intros (Hne & Hwf & _). unfold attempt.
  destruct (exists_last Hne) as (l & shape & Hl). rewrite Hl in *.
  rewrite py_index_last. cbn [bind].
  apply Forall_app in Hwf as [Hwfl Hshape]. rewrite Forall_singleton in Hshape.
  destruct (move_shape_total shape key Hshape) as (moved & -> & Hmoved). cbn [bind].
  destruct (is_in_bounds_total moved Hmoved) as [in_bounds ->]. cbn [bind].
  rewrite set_last_app.
  destruct (intersects_any_total (l ++ [moved])) as [collides ->].
  - by destruct l.
  - apply Forall_app. by rewrite Forall_singleton.
  - cbn [bind]. by eexists _, _.
Qed.

Lemma clear_full_rows_total fuel shapes :
  Forall wf_shape shapes -> (enough_fuel shapes <= fuel)%nat ->
  exists n shapes', clear_full_rows fuel shapes = Done (n, shapes') /\ Forall wf_shape shapes'.
Proof.
  intros Hwf Hfuel.
  destruct (clear_full_rows_loop_terminates fuel shapes 0 0 Hwf)
    as (k & shapes' & Hrun & Hwf' & _).
  { rewrite Z.sub_0_r. exact Hfuel. }
  by exists (0 + Z.of_nat k), shapes'.
Qed.

Lemma settle_total fuel context shape_type_1 shape_type_2 :
  wf_context context -> (enough_fuel (shapes context) <= fuel)%nat ->
  exists context', settle fuel context shape_type_1 shape_type_2 = Done context'
                   /\ wf_context context'.
Proof.
  intros (_ & Hwf & Hnext) Hfuel. unfold settle.
  destruct (clear_full_rows_total fuel _ Hwf Hfuel) as (n & shapes' & -> & Hwf').
  cbn [bind]. cbn.
  destruct (intersects_any_total (shapes' ++ [next_shape context])) as [collides ->].
  - by destruct shapes'.
  - apply Forall_app. by rewrite Forall_singleton.
  - cbn [bind]. destruct collides; eexists; (split; [reflexivity|]).
    + unfold wf_context. cbn. split; [done|]. split; [|apply get_new_shape_wf].
      rewrite Forall_singleton. apply get_new_shape_wf.
    + unfold wf_context. cbn. split; [by destruct shapes'|].
      split; [|apply get_new_shape_wf].
      apply Forall_app. by rewrite Forall_singleton.
Qed.

Lemma settle_highscore fuel context shape_type_1 shape_type_2 context' :
  settle fuel context shape_type_1 shape_type_2 = Done context' ->
  0 <= highscore context ->
  points context' <= highscore context' /\ 0 <= highscore context'.
Proof.
  unfold settle.
  destruct (clear_full_rows fuel (shapes context)) as [[n shapes']| |]; [|done|done].
  cbn [bind]. cbn.
  destruct (intersects_any _) as [[]| |]; [| |done|done]; intros [= <-] Hhs; cbn; lia.
Qed.

(** *** The example sessions are well formed *)

Lemma session_wf points highscore shapes next_shape :
  shapes <> [] -> Forall wf_shape shapes -> wf_shape next_shape ->
  wf_context (session points highscore shapes next_shape).
Proof. by intros; split. Qed.

Lemma falling_wf : wf_context falling.
Proof. apply session_wf; [done|repeat constructor|reflexivity]. Qed.

Lemma landed_wf : wf_context landed.
Proof. apply session_wf; [done|repeat constructor|reflexivity]. Qed.

Lemma stacked_wf points highscore : wf_context (stacked points highscore).
Proof. apply session_wf; [done|repeat constructor|reflexivity]. Qed.

Lemma at_left_wall_wf : wf_context at_left_wall.
Proof. apply session_wf; [done|repeat constructor|reflexivity]. Qed.

(** *** What triggers the settling block *)

(** C1, amended: on an accepted key [frame] validates the move; a valid
    move, a downward step included, only replaces the active shape by the
    moved one; a rejected left, right or up move leaves the session as it
    was; the settling block runs on a rejected downward step, and only
    there. *)
Theorem frame_settles_on_rejected_down (fuel : nat) (key : Z) (context : GameContext)
    (shape_type_1 shape_type_2 : TetrisBlockShape.t) :
  wf_context context ->
  existsb (Z.eqb key) ARROW_KEYS = true ->
  exists moved valid,
    attempt key context = Done (moved, valid)
    /\ frame fuel key context shape_type_1 shape_type_2
       = if valid then Done (with_shapes context (set_last (shapes context) moved))
         else if key =? KEY_DOWN then settle fuel context shape_type_1 shape_type_2
         else Done context.
Proof.
  intros Hwf Hkey.
  destruct (attempt_total key context Hwf) as (moved & valid & Hattempt & _).
  exists moved, valid. split; [done|]. by apply frame_arrow.
Qed.

Lemma frame_settles_on_rejected_down_witness :
  wf_context landed
  /\ existsb (Z.eqb KEY_DOWN) ARROW_KEYS = true
  /\ exists moved valid,
       attempt KEY_DOWN landed = Done (moved, valid)
       /\ frame 21 KEY_DOWN landed TetrisBlockShape.S TetrisBlockShape.Z
          = if valid then Done (with_shapes landed (set_last (shapes landed) moved))
            else if KEY_DOWN =? KEY_DOWN
                 then settle 21 landed TetrisBlockShape.S TetrisBlockShape.Z
                 else Done landed.
Proof.
  split; [exact landed_wf|]. split; [reflexivity|].
  exact (frame_settles_on_rejected_down 21 KEY_DOWN landed
           TetrisBlockShape.S TetrisBlockShape.Z landed_wf eq_refl).
Defined.

(** C1 as stated fails both ways: the downward step of [falling] is valid
    and [frame] only moves the piece, where the settling block would have
    spawned a second shape; the downward step of [landed] is rejected and
    [frame] does not leave the session as it was but spawns the next
    shape. *)
Lemma frame_valid_down_does_not_settle :
  (exists moved,
      attempt KEY_DOWN falling = Done (moved, true)
      /\ frame 21 KEY_DOWN falling TetrisBlockShape.S TetrisBlockShape.Z
         = Done (with_shapes falling [moved])
      /\ frame 21 KEY_DOWN falling TetrisBlockShape.S TetrisBlockShape.Z
         <> settle 21 falling TetrisBlockShape.S TetrisBlockShape.Z
      /\ frame 21 KEY_DOWN falling TetrisBlockShape.S TetrisBlockShape.Z
         <> settle 21 (with_shapes falling [moved]) TetrisBlockShape.S TetrisBlockShape.Z)
  /\ (exists moved context',
         attempt KEY_DOWN landed = Done (moved, false)
         /\ frame 21 KEY_DOWN landed TetrisBlockShape.S TetrisBlockShape.Z = Done context'
         /\ context' <> landed
         /\ length (shapes context') = 2%nat).
Proof.
  split.
  - eexists. split; [vm_compute; reflexivity|].
    split; [vm_compute; reflexivity|].
    split; vm_compute; discriminate.
  - eexists _, _. split; [vm_compute; reflexivity|].
    split; [vm_compute; reflexivity|].
    split; [discriminate|reflexivity].
Qed.

(** *** Game over *)

(** C6: when the downward step is rejected and the shape spawned after the
    rows are cleared collides, [frame] returns the reset session: no
    points, level 0, no cleared rows, the spawned shape alone in the list,
    and the game not started. *)
Theorem frame_game_over_resets (fuel : nat) (context : GameContext)
    (shape_type_1 shape_type_2 : TetrisBlockShape.t)
    (moved : TetrisBlock) (n : Z) (shapes' : list TetrisBlock) :
  attempt KEY_DOWN context = Done (moved, false) ->
  clear_full_rows fuel (shapes context) = Done (n, shapes') ->
  intersects_any (shapes' ++ [next_shape context]) = Done true ->
  exists context',
    frame fuel KEY_DOWN context shape_type_1 shape_type_2 = Done context'
    /\ points context' = 0 /\ level context' = 0 /\ cleared_rows context' = 0
    /\ shapes context' = [get_new_shape shape_type_1]
    /\ game_started context' = false.
Proof.
  intros Hattempt Hclear Hcollides.
  rewrite (frame_arrow fuel KEY_DOWN context _ _ moved false eq_refl Hattempt).
  cbn [Z.eqb KEY_DOWN Pos.eqb]. unfold settle. rewrite Hclear. cbn [bind]. cbn.
  rewrite Hcollides. cbn [bind]. eexists. split; [reflexivity|]. by cbn.
Qed.

Lemma frame_game_over_resets_witness :
  exists moved n shapes',
    attempt KEY_DOWN (stacked 120 300) = Done (moved, false)
    /\ clear_full_rows 21 (shapes (stacked 120 300)) = Done (n, shapes')
    /\ intersects_any (shapes' ++ [next_shape (stacked 120 300)]) = Done true
    /\ exists context',
         frame 21 KEY_DOWN (stacked 120 300) TetrisBlockShape.S TetrisBlockShape.Z
         = Done context'
         /\ points context' = 0 /\ level context' = 0 /\ cleared_rows context' = 0
         /\ shapes context' = [get_new_shape TetrisBlockShape.S]
         /\ game_started context' = false.
Proof.
  assert (H1 : attempt KEY_DOWN (stacked 120 300)
               = Done (mkTetrisBlock (Vector2.mk 4 16) (BLOCK_MASKS TetrisBlockShape.O) 4,
                       false)) by (vm_compute; reflexivity).
  assert (H2 : clear_full_rows 21 (shapes (stacked 120 300))
               = Done (0, shapes (stacked 120 300))) by (vm_compute; reflexivity).
  assert (H3 : intersects_any (shapes (stacked 120 300) ++ [next_shape (stacked 120 300)])
               = Done true) by (vm_compute; reflexivity).
  eexists _, _, _. split; [exact H1|]. split; [exact H2|]. split; [exact H3|].
  exact (frame_game_over_resets 21 (stacked 120 300)
           TetrisBlockShape.S TetrisBlockShape.Z _ _ _ H1 H2 H3).
Defined.

(** *** The highscore *)

(** From a session whose highscore is at least its points and not
    negative, every [frame] that returns leaves such a session; and on a
    session with a non-empty list of shapes with masks of 16 cells [frame]
    returns, given [enough_fuel]. *)
Lemma frame_highscore_not_negative (fuel : nat) (key : Z) (context : GameContext)
    (shape_type_1 shape_type_2 : TetrisBlockShape.t) :
  highscore context >= points context -> highscore context >= 0 ->
  (forall context',
      frame fuel key context shape_type_1 shape_type_2 = Done context' ->
      highscore context' >= points context' /\ highscore context' >= 0)
  /\ (wf_context context -> (enough_fuel (shapes context) <= fuel)%nat ->
      exists context', frame fuel key context shape_type_1 shape_type_2 = Done context').
Proof.
  intros Hinv Hhs.
  destruct (existsb (Z.eqb key) ARROW_KEYS) eqn:Hkey.
  - split.
    + intros context' Hframe.
      destruct (attempt key context) as [[moved valid]| |] eqn:Hattempt.
      * rewrite (frame_arrow _ _ _ _ _ _ _ Hkey Hattempt) in Hframe.
        destruct valid; [by injection Hframe as <-|].
        destruct (key =? KEY_DOWN); [|by injection Hframe as <-].
        apply settle_highscore in Hframe; lia.
      * exfalso. revert Hattempt Hframe. unfold attempt, frame. rewrite Hkey. cbn [negb].
        destruct (py_index _ _); [|done|done]. cbn [bind].
        destruct (move_shape _ _); [|done|done]. cbn [bind].
        destruct (is_in_bounds _); [|done|done]. cbn [bind shapes with_shapes].
        by destruct (intersects_any _).
      * exfalso. revert Hattempt Hframe. unfold attempt, frame. rewrite Hkey. cbn [negb].
        destruct (py_index _ _); [|done|done]. cbn [bind].
        destruct (move_shape _ _); [|done|done]. cbn [bind].
        destruct (is_in_bounds _); [|done|done]. cbn [bind shapes with_shapes].
        by destruct (intersects_any _).
    + intros Hwf Hfuel.
      destruct (attempt_total key context Hwf) as (moved & valid & Hattempt & _).
      rewrite (frame_arrow _ _ _ _ _ _ _ Hkey Hattempt).
      destruct valid; [by eexists|].
      destruct (key =? KEY_DOWN); [|by eexists].
      destruct (settle_total fuel context shape_type_1 shape_type_2 Hwf Hfuel)
        as (context' & -> & _).
      by eexists.
  - rewrite (frame_other_key _ _ _ _ _ Hkey). split; [|by eexists].
    by intros context' [= <-].
Qed.

(** C7: from a session whose points are not negative, as in every session
    from the start of the game on, and whose highscore is at least its
    points, every [frame] that returns, on any key, leaves a session whose
    highscore is at least its points; and on a session with a non-empty
    list of shapes with masks of 16 cells [frame] returns, given
    [enough_fuel]. *)
Theorem frame_keeps_highscore (fuel : nat) (key : Z) (context : GameContext)
    (shape_type_1 shape_type_2 : TetrisBlockShape.t) :
  highscore context >= points context -> points context >= 0 ->
  (forall context',
      frame fuel key context shape_type_1 shape_type_2 = Done context' ->
      highscore context' >= points context')
  /\ (wf_context context -> (enough_fuel (shapes context) <= fuel)%nat ->
      exists context', frame fuel key context shape_type_1 shape_type_2 = Done context').
Proof.
  intros Hinv Hpoints.
  destruct (frame_highscore_not_negative fuel key context shape_type_1 shape_type_2)
    as [Hkeeps Hreturns]; [done|lia|].
  split; [|exact Hreturns].
  intros context' Hframe. by destruct (Hkeeps context' Hframe).
Qed.

Lemma frame_keeps_highscore_witness :
  highscore (stacked 120 300) >= points (stacked 120 300)
  /\ points (stacked 120 300) >= 0
  /\ forall context',
       frame 21 KEY_DOWN (stacked 120 300) TetrisBlockShape.S TetrisBlockShape.Z
       = Done context' ->
       highscore context' >= points context'.
Proof.
  assert (H1 : highscore (stacked 120 300) >= points (stacked 120 300))
    by (vm_compute; discriminate).
  assert (H2 : points (stacked 120 300) >= 0) by (vm_compute; discriminate).
  split; [exact H1|]. split; [exact H2|].
  exact (proj1 (frame_keeps_highscore 21 KEY_DOWN (stacked 120 300)
                  TetrisBlockShape.S TetrisBlockShape.Z H1 H2)).
Defined.

(** The game over of [stacked 120 300]: the points go back to 0 and the
    highscore stays. *)
Example frame_game_over_keeps_highscore :
  exists context',
    frame 21 KEY_DOWN (stacked 120 300) TetrisBlockShape.S TetrisBlockShape.Z
    = Done context'
    /\ points context' = 0 /\ highscore context' = 300.
Proof. eexists. split; [vm_compute; reflexivity|]. by cbn. Qed.

(** *** Moves through a side wall *)

(** C8: a left or right key that would put an occupied cell of the active
    shape at a column below 0 or from WIDTH on is rejected: [frame]
    returns the session it was given, the active shape at its position
    and with its mask. *)
Theorem frame_rejects_move_through_wall (fuel : nat) (key : Z) (context : GameContext)
    (shape_type_1 shape_type_2 : TetrisBlockShape.t) (shape : TetrisBlock) (x y : Z) :
  wf_context context ->
  py_index (shapes context) (-1) = Done shape ->
  key = KEY_LEFT \/ key = KEY_RIGHT ->
  0 <= x < 4 -> 0 <= y < 4 -> cell (block shape) x y = true ->
  (let new_x := if key =? KEY_LEFT then Vector2.x (position shape) - 1
                else Vector2.x (position shape) + 1 in
   new_x + x < 0 \/ new_x + x >= WIDTH) ->
  frame fuel key context shape_type_1 shape_type_2 = Done context
  /\ exists shape', py_index (shapes context) (-1) = Done shape'
                    /\ position shape' = position shape /\ block shape' = block shape.
Proof.
  intros Hwf Hlast Hkey Hx Hy Hcell Hout. split; [|by exists shape].
  destruct (attempt_total key context Hwf) as (moved & valid & Hattempt & _).
  assert (Harrow : existsb (Z.eqb key) ARROW_KEYS = true)
    by (by destruct Hkey as [->| ->]).
  rewrite (frame_arrow _ _ _ _ _ _ _ Harrow Hattempt).
  assert ((key =? KEY_DOWN) = false) as -> by (by destruct Hkey as [->| ->]).
  assert (valid = false) as ->; [|done].
  revert Hattempt. unfold attempt. rewrite Hlast. cbn [bind].
  destruct Hwf as (_ & Hshapes & _).
  destruct (py_index_last_inv _ _ Hlast) as [l Hl]. rewrite Hl in Hshapes.
  apply Forall_app in Hshapes as [_ Hshape]. rewrite Forall_singleton in Hshape.
  assert (Hmove : move_shape shape key
    = Done (mkTetrisBlock
              (Vector2.mk (if key =? KEY_LEFT then Vector2.x (position shape) - 1
                           else Vector2.x (position shape) + 1)
                          (Vector2.y (position shape)))
              (block shape) (color shape)))
    by (by destruct Hkey as [->| ->]).
  rewrite Hmove. cbn [bind].
  rewrite (is_in_bounds_outside _ x y) by done. cbn [bind].
  destruct (intersects_any _); [|done|done]. cbn [bind]. by intros [= _ <-].
Qed.

Lemma frame_rejects_move_through_wall_witness :
  wf_context at_left_wall
  /\ frame 21 KEY_LEFT at_left_wall TetrisBlockShape.S TetrisBlockShape.Z
     = Done at_left_wall.
Proof.
  split; [exact at_left_wall_wf|].
  refine (proj1 (frame_rejects_move_through_wall 21 KEY_LEFT at_left_wall
                   TetrisBlockShape.S TetrisBlockShape.Z
                   (mkTetrisBlock (Vector2.mk 0 5) (BLOCK_MASKS TetrisBlockShape.I) 1)
                   0 1 at_left_wall_wf _ _ _ _ _ _)).
  - vm_compute; reflexivity.
  - left; reflexivity.
  - lia.
  - lia.
  - vm_compute; reflexivity.
  - simpl. lia.
Defined.

(** ** Stats *)


(** The two failures that [load_stats] catches: a missing file, and a text
    that [json.load] rejects with JSONDecodeError. *)
Lemma load_stats_caught (decode : list Byte.byte -> result string)
    (json_load : string -> result (gmap string Z)) :
  load_stats decode json_load Missing = Done DEFAULT_STATS
  /\ (forall bytes text, decode bytes = Done text ->
        json_load text = Raise JSONDecodeError ->
        load_stats decode json_load (Content bytes) = Done DEFAULT_STATS)
  /\ get_highscore DEFAULT_STATS = 0.
Proof.
  split; [done|]. split; [|done].
  intros bytes text Hdecode Hjson. unfold load_stats, open_read. cbn [bind].
  rewrite Hdecode. cbn [bind]. by rewrite Hjson.
Qed.

(** C9, where the code fails it: on a file that holds the byte 0xFF, which
    is no text in ASCII (nor in UTF-8), [load_stats] raises
    UnicodeDecodeError instead of returning the default record; so it does
    on every content that the codec rejects, whatever [json.load] would
    do, and on a file that may not be opened it raises PermissionError. *)
Theorem load_stats_raises_on_undecodable_bytes :
  (forall json_load,
      load_stats decode_ascii json_load (Content [Byte.xff]) = Raise UnicodeDecodeError)
  /\ (forall decode json_load bytes,
        decode bytes = Raise UnicodeDecodeError ->
        load_stats decode json_load (Content bytes) = Raise UnicodeDecodeError)
  /\ (forall decode json_load,
        load_stats decode json_load Denied = Raise PermissionError).
Proof.
  split; [done|]. split; [|done].
  intros decode json_load bytes Hdecode. unfold load_stats, open_read. cbn [bind].
  by rewrite Hdecode.
Qed.

Lemma decimal_round_trip (h : Z) :
  decimal_load (decimal_dump (stats_of h)) = Done (stats_of h).
Proof.
  unfold decimal_load, decimal_dump, get_highscore, stats_of.
  rewrite lookup_singleton_eq. cbn [default].
  by rewrite NilEmpty.isi, DecimalZ.of_to.
Qed.

Example stats_round_trip_decimal :
  exists file',
    save_stats encode_ascii decimal_dump (stats_of 1200) Missing = Done file'
    /\ load_stats decode_ascii decimal_load file' = Done (stats_of 1200).
Proof. eexists. split; vm_compute; reflexivity. Qed.

Example load_stats_malformed :
  load_stats decode_ascii decimal_load (Content (encode_ascii "12x4")) = Done DEFAULT_STATS.
Proof. vm_compute. reflexivity. Qed.

(** * Further properties *)

(** ** Slots of a mask *)

(** X1: [index_bm] numbers the 16 local cells: it stays within the mask, two
    different cells get different slots, and the slot [i] is the one of the
    cell (3 - i mod 4, i / 4). *)
Theorem index_bm_bijective :
  (forall x y, 0 <= x < 4 -> 0 <= y < 4 -> 0 <= index_bm x y < 16)
  /\ (forall x y x' y', 0 <= x < 4 -> 0 <= y < 4 -> 0 <= x' < 4 -> 0 <= y' < 4 ->
        index_bm x y = index_bm x' y' -> x = x' /\ y = y')
  /\ (forall i, 0 <= i < 16 ->
        0 <= 3 - i `mod` 4 < 4 /\ 0 <= i `div` 4 < 4
        /\ index_bm (3 - i `mod` 4) (i `div` 4) = i).
Proof.
  unfold index_bm. repeat split; try lia; Z.div_mod_to_equations; lia.
Qed.

(** X2: rotation moves the occupied cells without adding or dropping one. *)
Theorem rotate_shape_count (mask : BlockMask) :
  wf_mask mask ->
  exists mask', rotate_shape mask = Done mask' /\ wf_mask mask'
                /\ count_cells mask' = count_cells mask.
Proof.
  intros Hm. destruct_mask mask Hm. eexists.
  split; [vm_compute; reflexivity|]. split; [reflexivity|].
  unfold count_cells. cbn [sum_list_with]. lia.
Qed.

Lemma rotate_shape_count_witness :
  wf_mask (BLOCK_MASKS TetrisBlockShape.S)
  /\ exists mask', rotate_shape (BLOCK_MASKS TetrisBlockShape.S) = Done mask'
                   /\ wf_mask mask'
                   /\ count_cells mask' = count_cells (BLOCK_MASKS TetrisBlockShape.S).
Proof.
  split; [reflexivity|].
  exact (rotate_shape_count (BLOCK_MASKS TetrisBlockShape.S) eq_refl).
Defined.

(** ** Loops that decide *)

Lemma for_any_spec {A : Type} (P : A -> Prop) (body : A -> result bool) (l : list A) :
  (forall a, a ∈ l -> exists b, body a = Done b /\ (b = true <-> P a)) ->
  exists b, for_any body l = Done b /\ (b = true <-> exists a, a ∈ l /\ P a).
Proof.
  induction l as [|a l IH]; intros H.
  - exists false. split; [done|]. split; [done|]. intros (a & Ha & _).
    by apply elem_of_nil in Ha.
  - destruct (H a) as (b & Hb & HP); [by left|]. simpl. rewrite Hb. simpl.
    destruct b.
    + exists true. split; [done|]. split; [|done]. intros _. exists a.
      split; [by left|by apply HP].
    + destruct IH as (b' & Hb' & HP'); [intros a' Ha'; apply H; by right|].
      exists b'. split; [done|]. rewrite HP'. split.
      * intros (a' & Ha' & Hp). exists a'. split; [by right|done].
      * intros (a' & Ha' & Hp). apply elem_of_cons in Ha' as [->|Ha'].
        -- apply HP in Hp. done.
        -- by exists a'.
Qed.

Lemma for_all_spec {A : Type} (P : A -> Prop) (body : A -> result bool) (l : list A) :
  (forall a, a ∈ l -> exists b, body a = Done b /\ (b = true <-> P a)) ->
  exists b, for_all body l = Done b /\ (b = true <-> forall a, a ∈ l -> P a).
Proof.
  induction l as [|a l IH]; intros H.
  - exists true. split; [done|]. split; [|done]. intros _ a Ha.
    by apply elem_of_nil in Ha.
  - destruct (H a) as (b & Hb & HP); [by left|]. simpl. rewrite Hb. simpl.
    destruct b.
    + destruct IH as (b' & Hb' & HP'); [intros a' Ha'; apply H; by right|].
      exists b'. split; [done|]. rewrite HP'. split.
      * intros Hl a' Ha'. apply elem_of_cons in Ha' as [->|Ha']; [by apply HP|by apply Hl].
      * intros Hl a' Ha'. apply Hl. by right.
    + exists false. split; [done|]. split; [done|]. intros Hl.
      apply HP, Hl. by left.
Qed.

Lemma elem_of_py_range_2 lo hi x : lo <= x < hi -> x ∈ py_range lo hi.
Proof. intros H. unfold py_range. apply elem_of_seqZ. lia. Qed.

(** [occupies], unfolded. *)
Lemma occupies_spec shape cx cy :
  occupies shape cx cy = true <->
  0 <= cx - Vector2.x (position shape) < 4
  /\ 0 <= cy - Vector2.y (position shape) < 4
  /\ cell (block shape) (cx - Vector2.x (position shape))
       (cy - Vector2.y (position shape)) = true.
Proof.
  unfold occupies. cbv zeta.
  rewrite !andb_true_iff, !Z.leb_le, !Z.ltb_lt. tauto.
Qed.

(** ** Bounds *)

Lemma is_in_bounds_iff (shape : TetrisBlock) :
  wf_shape shape ->
  exists b, is_in_bounds shape = Done b
    /\ (b = true <->
        forall cx cy, occupies shape cx cy = true -> 0 <= cx < WIDTH /\ 0 <= cy).
Proof.
  intros Hwf.
  destruct (for_all_spec
    (fun x => forall y, 0 <= y < 4 -> cell (block shape) x y = true ->
       0 <= Vector2.x (position shape) + x < WIDTH /\ 0 <= Vector2.y (position shape) + y)
    (fun x => for_all (fun y =>
       v <- py_index (block shape) (index_bm x y);
       if negb v then Done true else
       if (Vector2.x (position shape) + x <? 0)
          || (Vector2.x (position shape) + x >=? WIDTH)
          || (Vector2.y (position shape) + y <? 0)
       then Done false
       else Done true) (py_range 0 4))
    (py_range 0 4)) as (b & Hb & Hspec).
  { intros x Hx%elem_of_py_range.
    destruct (for_all_spec
      (fun y => cell (block shape) x y = true ->
         0 <= Vector2.x (position shape) + x < WIDTH
         /\ 0 <= Vector2.y (position shape) + y)
      (fun y =>
         v <- py_index (block shape) (index_bm x y);
         if negb v then Done true else
         if (Vector2.x (position shape) + x <? 0)
            || (Vector2.x (position shape) + x >=? WIDTH)
            || (Vector2.y (position shape) + y <? 0)
         then Done false
         else Done true)
      (py_range 0 4)) as (b & Hb & Hspec).
    { intros y Hy%elem_of_py_range. rewrite is_in_bounds_cell by done.
      eexists. split; [reflexivity|].
      destruct (cell _ _ _); simpl; [|done].
      destruct (Z.ltb_spec (Vector2.x (position shape) + x) 0),
               (Z.geb_spec (Vector2.x (position shape) + x) WIDTH),
               (Z.ltb_spec (Vector2.y (position shape) + y) 0); simpl;
        split; (done || lia || (intros H'; specialize (H' eq_refl)); lia). }
    exists b. split; [done|]. rewrite Hspec. split.
    - intros H y Hy. apply H. by apply elem_of_py_range_2.
    - intros H y Hy%elem_of_py_range. by apply H. }
  exists b. split; [exact Hb|]. rewrite Hspec. split.
  - intros H cx cy (Hx & Hy & Hcell)%occupies_spec.
    specialize (H _ (elem_of_py_range_2 0 4 _ Hx) _ Hy Hcell). lia.
  - intros H x Hx%elem_of_py_range y Hy Hcell.
    specialize (H (Vector2.x (position shape) + x) (Vector2.y (position shape) + y)).
    apply H. apply occupies_spec.
    replace (Vector2.x (position shape) + x - Vector2.x (position shape)) with x by lia.
    replace (Vector2.y (position shape) + y - Vector2.y (position shape)) with y by lia.
    done.
Qed.

(** X3: on a shape with a mask of 16 cells [is_in_bounds] returns, and it
    returns True exactly when every occupied cell has a column in
    0 .. WIDTH - 1 and a row that is not negative; no row is too high: a
    shape in bounds is still in bounds however far it is raised. *)
Theorem is_in_bounds_spec (shape : TetrisBlock) :
  wf_shape shape ->
  exists b, is_in_bounds shape = Done b
    /\ (b = true <->
        forall cx cy, occupies shape cx cy = true -> 0 <= cx < WIDTH /\ 0 <= cy)
    /\ (b = true -> forall k, 0 <= k ->
        is_in_bounds
          (mkTetrisBlock
             (Vector2.mk (Vector2.x (position shape)) (Vector2.y (position shape) + k))
             (block shape) (color shape)) = Done true).
Proof.
  intros Hwf. destruct (is_in_bounds_iff shape Hwf) as (b & Hb & Hspec).
  exists b. split; [exact Hb|]. split; [exact Hspec|].
  intros Htrue k Hk.
  destruct (is_in_bounds_iff
              (mkTetrisBlock
                 (Vector2.mk (Vector2.x (position shape)) (Vector2.y (position shape) + k))
                 (block shape) (color shape)) Hwf) as (b' & -> & Hspec').
  f_equal. apply Hspec'. intros cx cy (Hx & Hy & Hcell)%occupies_spec. simpl in *.
  destruct (proj1 Hspec Htrue cx (cy - k)) as [Hcx Hcy]; [|lia].
  apply occupies_spec.
  by replace (cy - k - Vector2.y (position shape))
    with (cy - (Vector2.y (position shape) + k)) by lia.
Qed.

Lemma is_in_bounds_spec_witness :
  wf_shape (get_new_shape TetrisBlockShape.J)
  /\ exists b, is_in_bounds (get_new_shape TetrisBlockShape.J) = Done b
       /\ (b = true <->
           forall cx cy, occupies (get_new_shape TetrisBlockShape.J) cx cy = true ->
                         0 <= cx < WIDTH /\ 0 <= cy).
Proof.
  split; [reflexivity|].
  destruct (is_in_bounds_spec (get_new_shape TetrisBlockShape.J) eq_refl)
    as (b & H1 & H2 & _).
  exists b. split; [exact H1|exact H2].
Defined.

(** ** Collisions, cell by cell *)

Lemma check_collision_spec (shape_a shape_b : TetrisBlock) :
  wf_shape shape_a -> wf_shape shape_b ->
  exists b,
    check_collision
      (get_intersection_area (get_shape_bounds (position shape_a))
         (get_shape_bounds (position shape_b)))
      shape_a shape_b = Done b
    /\ (b = true <-> overlap shape_a shape_b).
Proof.
  intros Ha Hb. unfold check_collision, overlap. simpl.
  match goal with
  | |- exists b, for_any ?body ?l = _ /\ _ =>
      destruct (for_any_spec
        (fun x => exists y, occupies shape_a x y = true /\ occupies shape_b x y = true)
        body l) as (b & Hrun & Hspec)
  end.
  { intros x Hx%elem_of_py_range.
    match goal with
    | |- exists b, for_any ?body ?l = _ /\ _ =>
        destruct (for_any_spec
          (fun y => occupies shape_a x y = true /\ occupies shape_b x y = true)
          body l) as (b & Hrun & Hspec)
    end.
    { intros y Hy%elem_of_py_range.
      rewrite py_index_cell by (done || lia). simpl.
      destruct (cell (block shape_a) _ _) eqn:Hca; simpl.
      - rewrite py_index_cell by (done || lia). simpl.
        destruct (cell (block shape_b) _ _) eqn:Hcb; simpl;
          (eexists; split; [reflexivity|]); rewrite !occupies_spec, Hca, Hcb;
          split; (done || lia || intros (_ & _ & _ & _ & _ & ?); done).
      - eexists; split; [reflexivity|]. rewrite !occupies_spec, Hca.
        split; [done|]. by intros ((_ & _ & ?) & _). }
    exists b. split; [done|]. rewrite Hspec. split.
    - intros (y & _ & H). by exists y.
    - intros (y & H1 & H2). exists y. split; [|done].
      apply occupies_spec in H1 as (_ & ? & _). apply occupies_spec in H2 as (_ & ? & _).
      apply elem_of_py_range_2. lia. }
  exists b. split; [done|]. rewrite Hspec. split.
  - intros (x & _ & y & H). by exists x, y.
  - intros (x & y & H1 & H2). exists x. split; [|by exists y].
    apply occupies_spec in H1 as (? & _ & _). apply occupies_spec in H2 as (? & _ & _).
    apply elem_of_py_range_2. lia.
Qed.

Lemma intersects_any_spec (l : list TetrisBlock) (current : TetrisBlock) :
  Forall wf_shape l -> wf_shape current ->
  exists b, intersects_any (l ++ [current]) = Done b
    /\ (b = true <-> exists other, other ∈ l /\ overlap current other).
Proof.
  intros Hl Hcur. unfold intersects_any. rewrite py_index_last. cbn [bind].
  match goal with
  | |- exists b, for_any ?body ?r = _ /\ _ =>
      destruct (for_any_spec
        (fun i => exists other, l !! Z.to_nat i = Some other /\ overlap current other)
        body r) as (b & Hrun & Hspec)
  end.
  { intros i Hi%elem_of_py_range. rewrite length_app in Hi. simpl in Hi.
    destruct (py_index_in_range (l ++ [current]) i) as (other & Hlook & ->).
    { rewrite length_app. simpl. lia. }
    cbn [bind]. rewrite lookup_app_l in Hlook by lia.
    assert (Hother : wf_shape other) by (eapply Forall_lookup_1; [exact Hl|exact Hlook]).
    assert (Hiff : forall b, (b = true <-> overlap current other) ->
      b = true <-> exists other', l !! Z.to_nat i = Some other' /\ overlap current other').
    { intros b Hb. rewrite Hb. split; [intros H; by exists other|].
      intros (other' & Hlook' & H). congruence. }
    simpl.
    destruct (Z.gtb_spec (Vector2.x (position current)) (Vector2.x (position other) + 4));
      [exists false; split; [done|]; apply Hiff; split; [done|];
       intros (cx & cy & (? & _)%occupies_spec & (? & _)%occupies_spec); lia|].
    destruct (Z.ltb_spec (Vector2.x (position current) + 4) (Vector2.x (position other)));
      [exists false; split; [done|]; apply Hiff; split; [done|];
       intros (cx & cy & (? & _)%occupies_spec & (? & _)%occupies_spec); lia|].
    simpl.
    destruct (Z.gtb_spec (Vector2.y (position current)) (Vector2.y (position other) + 4));
      [exists false; split; [done|]; apply Hiff; split; [done|];
       intros (cx & cy & (_ & ? & _)%occupies_spec & (_ & ? & _)%occupies_spec); lia|].
    destruct (Z.ltb_spec (Vector2.y (position current) + 4) (Vector2.y (position other)));
      [exists false; split; [done|]; apply Hiff; split; [done|];
       intros (cx & cy & (_ & ? & _)%occupies_spec & (_ & ? & _)%occupies_spec); lia|].
    simpl.
    destruct (check_collision_spec current other Hcur Hother) as (b & Hb & Hspec).
    exists b. split; [exact Hb|]. by apply Hiff. }
  exists b. split; [exact Hrun|]. rewrite Hspec. split.
  - intros (i & _ & other & Hlook & H). exists other. split; [|done].
    by eapply list_elem_of_lookup_2.
  - intros (other & Hin & H). apply list_elem_of_lookup in Hin as [i Hi].
    exists (Z.of_nat i). split.
    + apply elem_of_py_range_2. rewrite length_app. simpl.
      apply lookup_lt_Some in Hi. lia.
    + exists other. by rewrite Nat2Z.id.
Qed.

(** X4: [intersects_any] reports a collision exactly when the active (last)
    shape has an occupied cell on a board cell that another shape of the
    list occupies. *)
Theorem intersects_any_cells (l : list TetrisBlock) (current : TetrisBlock) :
  Forall wf_shape l -> wf_shape current ->
  exists b, intersects_any (l ++ [current]) = Done b
    /\ (b = true <->
        exists other cx cy, other ∈ l /\ occupies current cx cy = true
                            /\ occupies other cx cy = true).
Proof.
  intros Hl Hcur. destruct (intersects_any_spec l current Hl Hcur) as (b & Hb & Hspec).
  exists b. split; [done|]. rewrite Hspec. unfold overlap. split.
  - intros (other & Hin & cx & cy & H). by exists other, cx, cy.
  - intros (other & cx & cy & Hin & H). exists other. split; [done|]. by exists cx, cy.
Qed.

Lemma intersects_any_cells_witness :
  Forall wf_shape [left_I] /\ wf_shape right_I
  /\ exists b, intersects_any ([left_I] ++ [right_I]) = Done b
       /\ (b = true <->
           exists other cx cy, other ∈ [left_I] /\ occupies right_I cx cy = true
                               /\ occupies other cx cy = true).
Proof.
  assert (H1 : Forall wf_shape [left_I]) by (constructor; [reflexivity|constructor]).
  split; [exact H1|]. split; [reflexivity|].
  exact (intersects_any_cells [left_I] right_I H1 eq_refl).
Defined.

(** X5: for two shapes, which of them is the active one makes no
    difference to [intersects_any]. *)
Theorem intersects_any_symmetric (a b : TetrisBlock) :
  wf_shape a -> wf_shape b -> intersects_any [a; b] = intersects_any [b; a].
Proof.
  intros Ha Hb.
  destruct (intersects_any_spec [a] b) as (r1 & H1 & S1);
    [by apply Forall_singleton|done|].
  destruct (intersects_any_spec [b] a) as (r2 & H2 & S2);
    [by apply Forall_singleton|done|].
  simpl in H1, H2. rewrite H1, H2. f_equal.
  assert (r1 = true <-> r2 = true); [|by destruct r1, r2; intuition].
  rewrite S1, S2. unfold overlap. split.
  - intros (other & ->%list_elem_of_singleton & cx & cy & ? & ?).
    exists b. split; [by apply list_elem_of_singleton|]. by exists cx, cy.
  - intros (other & ->%list_elem_of_singleton & cx & cy & ? & ?).
    exists a. split; [by apply list_elem_of_singleton|]. by exists cx, cy.
Qed.

Lemma intersects_any_symmetric_witness :
  wf_shape left_I /\ wf_shape right_I
  /\ intersects_any [left_I; right_I] = intersects_any [right_I; left_I].
Proof.
  split; [reflexivity|]. split; [reflexivity|].
  exact (intersects_any_symmetric left_I right_I eq_refl eq_refl).
Defined.

(** X6: [intersects_any] raises IndexError on the empty list, and a shape
    alone in the list collides with nothing, whatever its mask. *)
Theorem intersects_any_few_shapes (shape : TetrisBlock) :
  intersects_any [] = Raise IndexError /\ intersects_any [shape] = Done false.
Proof. split; reflexivity. Qed.

(** ** What a scan marks *)

Lemma mark_col_mono shape row fill x (c : nat) :
  fill !! c = Some true -> mark_col shape row fill x !! c = Some true.
Proof.
  intros H. unfold mark_col. destruct (_ && _); [|done].
  destruct (decide (c = Z.to_nat (Vector2.x (position shape) + x))) as [->|Hne].
  - apply list_lookup_insert_eq. by apply lookup_lt_Some in H.
  - by rewrite list_lookup_insert_ne.
Qed.

Lemma mark_col_hit shape row fill x :
  0 <= Vector2.x (position shape) + x < Z.of_nat (length fill) ->
  Z.of_nat (length fill) = WIDTH ->
  cell (block shape) x (row - Vector2.y (position shape)) = true ->
  mark_col shape row fill x !! Z.to_nat (Vector2.x (position shape) + x) = Some true.
Proof.
  intros Hc Hlen Hcell. unfold mark_col. rewrite Hcell.
  destruct (Z.leb_spec 0 (Vector2.x (position shape) + x)); [|lia].
  destruct (Z.ltb_spec (Vector2.x (position shape) + x) WIDTH); [|lia].
  simpl. apply list_lookup_insert_eq. lia.
Qed.

Lemma mark_shape_mono row fill shape (c : nat) :
  fill !! c = Some true -> mark_shape row fill shape !! c = Some true.
Proof.
  intros H. unfold mark_shape. destruct (is_cut row shape); [|done].
  rewrite py_range_4. cbn [foldl]. by do 4 apply mark_col_mono.
Qed.

Lemma mark_shape_complete row fill shape (c : nat) :
  Z.of_nat (length fill) = WIDTH -> (c < length fill)%nat ->
  occupies shape (Z.of_nat c) row = true ->
  mark_shape row fill shape !! c = Some true.
Proof.
  intros Hlen Hc (Hx & Hy & Hcell)%occupies_spec. unfold mark_shape.
  assert (is_cut row shape = true) as ->.
  { unfold is_cut.
    destruct (Z.gtb_spec (Vector2.y (position shape)) row); [lia|].
    destruct (Z.leb_spec (Vector2.y (position shape) + 4) row); [lia|done]. }
  rewrite py_range_4. cbn [foldl].
  remember (Z.of_nat c - Vector2.x (position shape)) as x eqn:Hxdef.
  assert (Hcx : c = Z.to_nat (Vector2.x (position shape) + x)) by lia.
  assert (Hhit : forall fill', length fill' = length fill ->
            mark_col shape row fill' x !! c = Some true).
  { intros fill' Hlen'. rewrite Hcx. apply mark_col_hit; [lia|lia|done]. }
  assert (Ex : x = 0 \/ x = 1 \/ x = 2 \/ x = 3) by lia.
  destruct Ex as [Ex|[Ex|[Ex|Ex]]]; rewrite Ex in Hhit.
  - do 3 apply mark_col_mono. by apply Hhit.
  - do 2 apply mark_col_mono. apply Hhit. by rewrite mark_col_length.
  - apply mark_col_mono. apply Hhit. by rewrite !mark_col_length.
  - apply Hhit. by rewrite !mark_col_length.
Qed.

Lemma mark_row_mono shapes row fill (c : nat) :
  fill !! c = Some true -> mark_row shapes row fill !! c = Some true.
Proof.
  revert fill. induction shapes as [|shape l IH]; intros fill H; [done|].
  unfold mark_row in *. simpl. apply IH. by apply mark_shape_mono.
Qed.

Lemma mark_row_complete shapes row fill (c : nat) :
  Z.of_nat (length fill) = WIDTH -> (c < length fill)%nat ->
  occupied shapes (Z.of_nat c) row = true ->
  mark_row shapes row fill !! c = Some true.
Proof.
  revert fill. induction shapes as [|shape l IH]; intros fill Hlen Hc; [done|].
  unfold occupied, mark_row in *. simpl. intros [H|H]%orb_true_iff.
  - apply (mark_row_mono l). by apply mark_shape_complete.
  - apply IH; [by rewrite mark_shape_length..|done].
Qed.

Lemma mark_row_lookup shapes row (c : nat) :
  (c < Z.to_nat WIDTH)%nat ->
  mark_row shapes row (replicate (Z.to_nat WIDTH) false) !! c
  = Some (occupied shapes (Z.of_nat c) row).
Proof.
  intros Hc.
  destruct (lookup_lt_is_Some_2 (mark_row shapes row (replicate (Z.to_nat WIDTH) false)) c)
    as [b Hb]; [by rewrite mark_row_length, length_replicate|].
  rewrite Hb. f_equal.
  destruct (occupied shapes (Z.of_nat c) row) eqn:Hocc.
  - rewrite mark_row_complete in Hb; [congruence|by rewrite length_replicate..|done].
  - destruct b; [|done].
    apply mark_row_sound in Hb as [Hb|(shape & Hin & Hs)].
    + by apply lookup_replicate in Hb as [? _].
    + assert (occupied shapes (Z.of_nat c) row = true); [|congruence].
      apply existsb_exists. exists shape. split; [by apply list_elem_of_In|done].
Qed.

Lemma scan_full_iff shapes row :
  forallb id (mark_row shapes row (replicate (Z.to_nat WIDTH) false)) = row_full shapes row.
Proof.
  set (fill := mark_row shapes row (replicate (Z.to_nat WIDTH) false)).
  destruct (row_full shapes row) eqn:Hfull.
  - apply forallb_forall. intros b Hb%list_elem_of_In.
    apply list_elem_of_lookup in Hb as [c Hc].
    pose proof (lookup_lt_Some _ _ _ Hc) as Hlt.
    unfold fill in Hlt. rewrite mark_row_length, length_replicate in Hlt.
    unfold fill in Hc. rewrite mark_row_lookup in Hc by done.
    injection Hc as <-. unfold row_full in Hfull.
    rewrite forallb_forall in Hfull. apply Hfull, list_elem_of_In, elem_of_py_range_2.
    lia.
  - by apply scan_not_full.
Qed.

(** X7: the scan of a row marks, in a list of WIDTH flags, exactly the
    columns of the board row that some shape occupies, so the row is
    treated as full exactly when every one of its columns is occupied. *)
Theorem categorize_all_marks_occupied (shapes : list TetrisBlock) (row : Z) :
  Forall wf_shape shapes ->
  exists cut_shapes above_shapes is_column_filled,
    categorize_all shapes row = Done (cut_shapes, above_shapes, is_column_filled)
    /\ length is_column_filled = Z.to_nat WIDTH
    /\ (forall col, 0 <= col < WIDTH ->
          is_column_filled !! Z.to_nat col = Some (occupied shapes col row))
    /\ forallb id is_column_filled = row_full shapes row.
Proof.
  intros Hwf. rewrite categorize_all_spec by done. eexists _, _, _.
  split; [reflexivity|]. split; [by rewrite mark_row_length, length_replicate|].
  split; [|apply scan_full_iff].
  intros col Hcol. rewrite mark_row_lookup by lia. by rewrite Z2Nat.id by lia.
Qed.

Lemma categorize_all_marks_occupied_witness :
  Forall wf_shape floor_of_I
  /\ exists cut_shapes above_shapes is_column_filled,
       categorize_all floor_of_I 0 = Done (cut_shapes, above_shapes, is_column_filled)
       /\ length is_column_filled = Z.to_nat WIDTH
       /\ (forall col, 0 <= col < WIDTH ->
             is_column_filled !! Z.to_nat col = Some (occupied floor_of_I col 0))
       /\ forallb id is_column_filled = row_full floor_of_I 0.
Proof.
  split; [exact floor_of_I_wf|].
  exact (categorize_all_marks_occupied floor_of_I 0 floor_of_I_wf).
Defined.

(** ** The board after a row is cleared *)

Lemma remove_row_cell (mask : BlockMask) (row_idx : Z) :
  wf_mask mask -> 0 <= row_idx < 4 ->
  exists mask', remove_row mask row_idx = Done mask' /\ wf_mask mask'
    /\ forall x y, 0 <= x < 4 -> 0 <= y < 4 ->
         cell mask' x y
         = if y <? row_idx then cell mask x y
           else if y + 1 <? 4 then cell mask x (y + 1)
           else false.
Proof.
  intros Hm Hr. destruct_mask mask Hm.
  case_coord row_idx Hr; eexists; (split; [vm_compute; reflexivity|]);
    (split; [reflexivity|]); intros x y Hx Hy;
    case_coord x Hx; case_coord y Hy; vm_compute; reflexivity.
Qed.

(** X8: the mask built for a cutting shape keeps the local rows below the
    removed one, holds the next higher row in every row from the removed
    one on, and has an empty top row; it has lost the occupied cells of
    the removed row and no other. *)
Theorem remove_row_cells (mask : BlockMask) (row_idx : Z) :
  wf_mask mask -> 0 <= row_idx < 4 ->
  exists mask', remove_row mask row_idx = Done mask' /\ wf_mask mask'
    /\ (forall x y, 0 <= x < 4 -> 0 <= y < 4 ->
          cell mask' x y
          = if y <? row_idx then cell mask x y
            else if y + 1 <? 4 then cell mask x (y + 1)
            else false)
    /\ (count_cells mask' + row_cells mask row_idx = count_cells mask)%nat.
Proof.
  intros Hm Hr.
  destruct (remove_row_cell mask row_idx Hm Hr) as (mask' & Hrun & Hwf & Hcells).
  destruct (remove_row_spec mask row_idx Hm Hr) as (mask'' & Hrun' & _ & Hcount).
  assert (mask'' = mask') as -> by congruence.
  exists mask'. split; [exact Hrun|]. split; [exact Hwf|]. split; [exact Hcells|exact Hcount].
Qed.

Lemma remove_row_cells_witness :
  wf_mask (BLOCK_MASKS TetrisBlockShape.L) /\ 0 <= 1 < 4
  /\ exists mask', remove_row (BLOCK_MASKS TetrisBlockShape.L) 1 = Done mask'
       /\ wf_mask mask'
       /\ (count_cells mask' + row_cells (BLOCK_MASKS TetrisBlockShape.L) 1
           = count_cells (BLOCK_MASKS TetrisBlockShape.L))%nat.
Proof.
  assert (H : 0 <= 1 < 4) by lia.
  split; [reflexivity|]. split; [exact H|].
  destruct (remove_row_cells (BLOCK_MASKS TetrisBlockShape.L) 1 eq_refl H)
    as (mask' & H1 & H2 & _ & H3).
  exists mask'. split; [exact H1|]. split; [exact H2|exact H3].
Defined.

Lemma occupies_out_of_box shape cx cy :
  ~ (0 <= cx - Vector2.x (position shape) < 4
     /\ 0 <= cy - Vector2.y (position shape) < 4) ->
  occupies shape cx cy = false.
Proof.
  intros H. destruct (occupies shape cx cy) eqn:Hocc; [|done].
  apply occupies_spec in Hocc. tauto.
Qed.

Lemma occupies_in_box shape cx cy :
  0 <= cx - Vector2.x (position shape) < 4 ->
  0 <= cy - Vector2.y (position shape) < 4 ->
  occupies shape cx cy
  = cell (block shape) (cx - Vector2.x (position shape)) (cy - Vector2.y (position shape)).
Proof.
  intros Hx Hy. unfold occupies. cbv zeta.
  destruct (Z.leb_spec 0 (cx - Vector2.x (position shape))); [|lia].
  destruct (Z.ltb_spec (cx - Vector2.x (position shape)) 4); [|lia].
  destruct (Z.leb_spec 0 (cy - Vector2.y (position shape))); [|lia].
  destruct (Z.ltb_spec (cy - Vector2.y (position shape)) 4); [|lia].
  done.
Qed.

Lemma clear_shape_occupies row shape cx cy :
  wf_shape shape ->
  occupies (clear_shape row shape) cx cy
  = if cy <? row then occupies shape cx cy else occupies shape cx (cy + 1).
Proof.
  intros Hwf. unfold clear_shape.
  destruct (is_above row shape) eqn:Habove.
  - unfold is_above in Habove. apply Z.gtb_lt in Habove.
    destruct (Z.ltb_spec cy row).
    + rewrite !occupies_out_of_box; [done|lia|simpl; lia].
    + unfold occupies, shift_down. simpl.
      by replace (cy - (Vector2.y (position shape) - 1))
        with (cy + 1 - Vector2.y (position shape)) by lia.
  - destruct (is_cut row shape) eqn:Hcut.
    + destruct (is_cut_row_idx _ _ Hcut) as [_ Hidx].
      destruct (remove_row_cell (block shape) _ Hwf Hidx) as (m' & -> & _ & Hcells).
      destruct (decide (0 <= cx - Vector2.x (position shape) < 4)) as [Hx|Hx];
        [|rewrite !occupies_out_of_box by (simpl; lia); by destruct (cy <? row)].
      destruct (decide (0 <= cy - Vector2.y (position shape) < 4)) as [Hy|Hy].
      * rewrite occupies_in_box by (simpl; lia). simpl. rewrite Hcells by lia.
        destruct (Z.ltb_spec cy row), (Z.ltb_spec (cy - Vector2.y (position shape))
                                         (row - Vector2.y (position shape))); try lia.
        -- by rewrite occupies_in_box.
        -- destruct (Z.ltb_spec (cy - Vector2.y (position shape) + 1) 4).
           ++ rewrite occupies_in_box by lia. f_equal. lia.
           ++ rewrite occupies_out_of_box; [done|lia].
      * rewrite (occupies_out_of_box (mkTetrisBlock _ _ _)) by (simpl; lia).
        destruct (Z.ltb_spec cy row); [by rewrite occupies_out_of_box by lia|].
        rewrite occupies_out_of_box; [done|lia].
    + unfold is_above in Habove. unfold is_cut in Hcut.
      destruct (Z.gtb_spec (Vector2.y (position shape)) row); [done|].
      destruct (Z.leb_spec (Vector2.y (position shape) + 4) row); [|done].
      destruct (Z.ltb_spec cy row); [done|].
      rewrite !occupies_out_of_box; [done|lia|lia].
Qed.

Lemma clear_shapes_occupied row shapes cx cy :
  Forall wf_shape shapes ->
  occupied (map (clear_shape row) shapes) cx cy
  = if cy <? row then occupied shapes cx cy else occupied shapes cx (cy + 1).
Proof.
  unfold occupied. induction 1 as [|shape l Hshape _ IH]; simpl.
  - by destruct (cy <? row).
  - rewrite IH, clear_shape_occupies by done. by destruct (cy <? row).
Qed.

(** X9: clearing a row takes that row out of the board: whatever the row
    was, afterwards every board cell below it is occupied as before, and
    every cell from it on is occupied as the cell one row higher was. *)
Theorem clear_row_shifts_board (shapes : list TetrisBlock) (row : Z)
    (cut_shapes above_shapes : list nat) (is_column_filled : list bool) :
  Forall wf_shape shapes ->
  categorize_all shapes row = Done (cut_shapes, above_shapes, is_column_filled) ->
  exists shapes',
    remove_row_from_shapes (move_shapes_down shapes above_shapes) cut_shapes row
    = Done shapes'
    /\ length shapes' = length shapes
    /\ forall cx cy,
         occupied shapes' cx cy
         = if cy <? row then occupied shapes cx cy else occupied shapes cx (cy + 1).
Proof.
  intros Hwf Hscan. rewrite categorize_all_spec in Hscan by done.
  injection Hscan as <- <- <-. exists (map (clear_shape row) shapes).
  split; [by apply clear_step|]. split; [apply length_map|].
  intros cx cy. by apply clear_shapes_occupied.
Qed.

Lemma clear_row_shifts_board_witness :
  Forall wf_shape floor_of_I
  /\ exists cut_shapes above_shapes is_column_filled shapes',
       categorize_all floor_of_I 0 = Done (cut_shapes, above_shapes, is_column_filled)
       /\ remove_row_from_shapes (move_shapes_down floor_of_I above_shapes) cut_shapes 0
          = Done shapes'
       /\ length shapes' = length floor_of_I
       /\ forall cx cy,
            occupied shapes' cx cy
            = if cy <? 0 then occupied floor_of_I cx cy
              else occupied floor_of_I cx (cy + 1).
Proof.
  split; [exact floor_of_I_wf|].
  assert (Hscan : categorize_all floor_of_I 0
                  = Done ([0; 1; 2; 3]%nat, [],
                          replicate (Z.to_nat WIDTH) true)) by (vm_compute; reflexivity).
  destruct (clear_row_shifts_board floor_of_I 0 _ _ _ floor_of_I_wf Hscan)
    as (shapes' & H1 & H2 & H3).
  exists [0; 1; 2; 3]%nat, [], (replicate (Z.to_nat WIDTH) true), shapes'.
  split; [exact Hscan|]. split; [exact H1|]. split; [exact H2|exact H3].
Defined.

(** ** The board after [clear_full_rows] *)

Lemma row_full_below row shapes r :
  Forall wf_shape shapes -> r < row ->
  row_full (map (clear_shape row) shapes) r = row_full shapes r.
Proof.
  intros Hwf Hr. unfold row_full.
  induction (py_range 0 WIDTH) as [|col l IH]; [done|]. simpl.
  rewrite IH, clear_shapes_occupied by done.
  by destruct (Z.ltb_spec r row); [|lia].
Qed.

Lemma clear_full_rows_loop_no_full_row_left fuel :
  forall shapes row n n' shapes',
    Forall wf_shape shapes ->
    (forall r, 0 <= r < row -> row_full shapes r = false) ->
    clear_full_rows_loop fuel shapes row n = Done (n', shapes') ->
    forall r, 0 <= r < HEIGHT -> row_full shapes' r = false.
Proof.
  induction fuel as [|fuel IH]; intros shapes row n n' shapes' Hwf Hbelow Hrun r Hr.
  - simpl in Hrun. destruct (Z.ltb_spec row HEIGHT); [done|].
    injection Hrun as <- <-. apply Hbelow. lia.
  - cbn [clear_full_rows_loop] in Hrun.
    destruct (Z.ltb_spec row HEIGHT) as [Hlt|Hge]; cbn [negb] in Hrun;
      [|injection Hrun as <- <-; apply Hbelow; lia].
    rewrite categorize_all_spec in Hrun by done. cbn [bind] in Hrun.
    rewrite scan_full_iff in Hrun.
    destruct (row_full shapes row) eqn:Hfull; cbn [negb] in Hrun.
    + rewrite clear_step in Hrun by done. cbn [bind] in Hrun.
      eapply IH; [| |exact Hrun|exact Hr].
      * apply Forall_fmap. eapply Forall_impl; [exact Hwf|].
        intros shape. apply clear_shape_wf.
      * intros r' Hr'. rewrite row_full_below by (done || lia). apply Hbelow. lia.
    + eapply IH; [exact Hwf| |exact Hrun|exact Hr].
      intros r' Hr'. destruct (decide (r' = row)) as [->|?]; [done|].
      apply Hbelow. lia.
Qed.

(** X10: whatever [clear_full_rows] returns, the shapes it leaves have no
    full row on the board any more. *)
Theorem clear_full_rows_leaves_no_full_row (fuel : nat) (shapes : list TetrisBlock)
    (n : Z) (shapes' : list TetrisBlock) :
  Forall wf_shape shapes ->
  clear_full_rows fuel shapes = Done (n, shapes') ->
  forall row, 0 <= row < HEIGHT -> row_full shapes' row = false.
Proof.
  intros Hwf Hrun. eapply clear_full_rows_loop_no_full_row_left; [exact Hwf| |exact Hrun].
  intros r Hr. lia.
Qed.

Lemma clear_full_rows_leaves_no_full_row_witness :
  Forall wf_shape floor_of_I
  /\ exists n shapes',
       clear_full_rows 22 floor_of_I = Done (n, shapes')
       /\ forall row, 0 <= row < HEIGHT -> row_full shapes' row = false.
Proof.
  split; [exact floor_of_I_wf|].
  eexists _, _. split; [vm_compute; reflexivity|].
  refine (clear_full_rows_leaves_no_full_row 22 floor_of_I _ _ floor_of_I_wf _).
  vm_compute; reflexivity.
Defined.

(** X11: a second [clear_full_rows] right after a first finds nothing to
    clear: it returns 0 and the shapes the first one left. *)
Theorem clear_full_rows_twice (fuel fuel' : nat) (shapes : list TetrisBlock)
    (n : Z) (shapes' : list TetrisBlock) :
  Forall wf_shape shapes ->
  clear_full_rows fuel shapes = Done (n, shapes') ->
  (Z.to_nat HEIGHT <= fuel')%nat ->
  clear_full_rows fuel' shapes' = Done (0, shapes').
Proof.
  intros Hwf Hrun Hfuel.
  assert (Hwf' : Forall wf_shape shapes').
  { destruct (clear_full_rows_loop_terminates
                (fuel + (Z.to_nat HEIGHT + total_cells shapes `div` Z.to_nat WIDTH))
                shapes 0 0 Hwf) as (k & shapes'' & Hrun' & Hwf'' & _);
      [rewrite Z.sub_0_r; lia|].
    unfold clear_full_rows in Hrun.
    apply clear_full_rows_loop_fuel_mono
      with (fuel' := (fuel + (Z.to_nat HEIGHT + total_cells shapes `div` Z.to_nat WIDTH))%nat)
      in Hrun; [|lia].
    congruence. }
  apply clear_full_rows_loop_no_full_row; [done| |lia|lia].
  eapply clear_full_rows_loop_no_full_row_left; [exact Hwf| |exact Hrun].
  intros r Hr. lia.
Qed.

Lemma clear_full_rows_twice_witness :
  Forall wf_shape floor_of_I
  /\ exists n shapes',
       clear_full_rows 22 floor_of_I = Done (n, shapes')
       /\ clear_full_rows 21 shapes' = Done (0, shapes').
Proof.
  split; [exact floor_of_I_wf|].
  eexists _, _. split; [vm_compute; reflexivity|].
  refine (clear_full_rows_twice 22 21 floor_of_I _ _ floor_of_I_wf _ _).
  - vm_compute; reflexivity.
  - vm_compute; lia.
Defined.

(** ** What [clear_full_rows] leaves alone *)

Lemma clear_shape_keeps row shape :
  keeps_place shape (clear_shape row shape)
  /\ Vector2.y (position shape) - 1 <= Vector2.y (position (clear_shape row shape)).
Proof.
  unfold keeps_place, clear_shape.
  destruct (is_above row shape); [simpl; lia|].
  destruct (is_cut row shape); [|lia].
  destruct (remove_row _ _); simpl; lia.
Qed.

Lemma clear_full_rows_loop_keeps fuel :
  forall shapes row n n' shapes',
    Forall wf_shape shapes ->
    clear_full_rows_loop fuel shapes row n = Done (n', shapes') ->
    n <= n'
    /\ Forall2 (fun shape shape' =>
                  keeps_place shape shape'
                  /\ Vector2.y (position shape) - (n' - n) <= Vector2.y (position shape'))
         shapes shapes'.
Proof.
  induction fuel as [|fuel IH]; intros shapes row n n' shapes' Hwf Hrun.
  - simpl in Hrun. destruct (row <? HEIGHT); [done|]. injection Hrun as <- <-.
    split; [lia|]. apply Forall2_same_length_lookup. split; [done|].
    intros i s s' Hs Hs'. assert (s = s') as <- by congruence.
    unfold keeps_place. lia.
  - cbn [clear_full_rows_loop] in Hrun.
    destruct (row <? HEIGHT); cbn [negb] in Hrun.
    + rewrite categorize_all_spec in Hrun by done. cbn [bind] in Hrun.
      destruct (forallb id _); cbn [negb] in Hrun.
      * rewrite clear_step in Hrun by done. cbn [bind] in Hrun.
        apply IH in Hrun as [Hn Hrel].
        2:{ apply Forall_fmap. eapply Forall_impl; [exact Hwf|].
            intros shape. apply clear_shape_wf. }
        split; [lia|].
        apply Forall2_fmap_l in Hrel. eapply Forall2_impl; [exact Hrel|].
        intros s s' [Hk Hy]. destruct (clear_shape_keeps row s) as [Hk' Hy'].
        unfold keeps_place in *. simpl in *. split; lia.
      * by apply IH in Hrun.
    + injection Hrun as <- <-.
      split; [lia|]. apply Forall2_same_length_lookup. split; [done|].
      intros i s s' Hs Hs'. assert (s = s') as <- by congruence.
      unfold keeps_place. lia.
Qed.

(** X12: [clear_full_rows] keeps the shapes in their places of the list,
    each with its colour and its column; no shape is moved up, and none
    further down than the number of rows cleared, which is not negative. *)
Theorem clear_full_rows_keeps_shapes (fuel : nat) (shapes : list TetrisBlock)
    (n : Z) (shapes' : list TetrisBlock) :
  Forall wf_shape shapes ->
  clear_full_rows fuel shapes = Done (n, shapes') ->
  0 <= n /\ length shapes' = length shapes
  /\ forall i shape shape',
       shapes !! i = Some shape -> shapes' !! i = Some shape' ->
       color shape' = color shape
       /\ Vector2.x (position shape') = Vector2.x (position shape)
       /\ Vector2.y (position shape) - n <= Vector2.y (position shape')
          <= Vector2.y (position shape).
Proof.
  intros Hwf Hrun.
  destruct (clear_full_rows_loop_keeps fuel shapes 0 0 n shapes' Hwf Hrun) as [Hn Hrel].
  split; [done|]. split; [symmetry; by eapply Forall2_length|].
  intros i shape shape' Hs Hs'.
  destruct (Forall2_lookup_lr _ _ _ _ _ _ Hrel Hs Hs') as [Hk Hy].
  unfold keeps_place in Hk. lia.
Qed.

Lemma clear_full_rows_keeps_shapes_witness :
  Forall wf_shape floor_of_I
  /\ exists n shapes',
       clear_full_rows 22 floor_of_I = Done (n, shapes')
       /\ 0 <= n /\ length shapes' = length floor_of_I.
Proof.
  split; [exact floor_of_I_wf|].
  assert (Hrun : clear_full_rows 22 floor_of_I
                 = Done (1, map (clear_shape 0) floor_of_I)) by (vm_compute; reflexivity).
  destruct (clear_full_rows_keeps_shapes 22 floor_of_I _ _ floor_of_I_wf Hrun)
    as (H1 & H2 & _).
  exists 1, (map (clear_shape 0) floor_of_I).
  split; [exact Hrun|]. split; [exact H1|exact H2].
Defined.

(** ** Moves and levels *)

(** X13: a left move undoes a right move and the other way round; no key
    changes the colour of a shape or moves it up, and only the up key
    changes its mask. *)
Theorem move_shape_inverse (shape : TetrisBlock) :
  (moved <- move_shape shape KEY_LEFT; move_shape moved KEY_RIGHT) = Done shape
  /\ (moved <- move_shape shape KEY_RIGHT; move_shape moved KEY_LEFT) = Done shape
  /\ forall key moved, move_shape shape key = Done moved ->
       color moved = color shape
       /\ Vector2.y (position moved) <= Vector2.y (position shape)
       /\ (key <> KEY_UP -> block moved = block shape).
Proof.
  split; [|split].
  - destruct shape as [[px py] m c]. cbn. do 3 f_equal. lia.
  - destruct shape as [[px py] m c]. cbn. do 3 f_equal. lia.
  - intros key moved. unfold move_shape.
    destruct (key =? KEY_LEFT); [intros [= <-]; simpl; split; [done|split; [lia|done]]|].
    destruct (key =? KEY_RIGHT); [intros [= <-]; simpl; split; [done|split; [lia|done]]|].
    destruct (Z.eqb_spec key KEY_UP) as [->|Hup].
    + destruct (rotate_shape _); simpl; [|done|done].
      intros [= <-]. simpl. split; [done|split; [lia|done]].
    + destruct (key =? KEY_DOWN); intros [= <-]; simpl; (split; [done|split; [lia|done]]).
Qed.

(** X14: [update_level] keeps the level at cleared_rows // 10, so that
    10 * level <= cleared_rows < 10 * level + 10, and two updates in a row
    are one update by the sum. *)
Theorem update_level_adds (context : GameContext) (a b : Z) :
  update_level (update_level context a) b = update_level context (a + b)
  /\ cleared_rows (update_level context a) = cleared_rows context + a
  /\ 10 * level (update_level context a) <= cleared_rows (update_level context a)
     < 10 * level (update_level context a) + 10.
Proof.
  unfold update_level. cbn. split; [by rewrite Z.add_assoc|]. split; [done|].
  Z.div_mod_to_equations. lia.
Qed.

(** ** Invariants of [frame] *)

Lemma attempt_wf key context moved valid :
  wf_context context -> attempt key context = Done (moved, valid) -> wf_shape moved.
Proof.
  intros Hwf Ha. destruct (attempt_total key context Hwf) as (m & v & Ha' & Hm).
  congruence.
Qed.

Lemma frame_cases fuel key context shape_type_1 shape_type_2 context' :
  frame fuel key context shape_type_1 shape_type_2 = Done context' ->
  context' = context
  \/ (exists moved, attempt key context = Done (moved, true)
        /\ context' = with_shapes context (set_last (shapes context) moved))
  \/ (key = KEY_DOWN /\ settle fuel context shape_type_1 shape_type_2 = Done context').
Proof.
  intros Hframe.
  destruct (existsb (Z.eqb key) ARROW_KEYS) eqn:Hkey;
    [|rewrite frame_other_key in Hframe by done; left; congruence].
  destruct (attempt key context) as [[moved valid]| |] eqn:Hattempt.
  - rewrite (frame_arrow _ _ _ _ _ _ _ Hkey Hattempt) in Hframe.
    destruct valid; [right; left; exists moved; split; [done|congruence]|].
    destruct (Z.eqb_spec key KEY_DOWN); [by right; right|left; congruence].
  - exfalso. revert Hattempt Hframe. unfold attempt, frame. rewrite Hkey. cbn [negb].
    destruct (py_index _ _); [|done|done]. cbn [bind].
    destruct (move_shape _ _); [|done|done]. cbn [bind].
    destruct (is_in_bounds _); [|done|done]. cbn [bind shapes with_shapes].
    by destruct (intersects_any _).
  - exfalso. revert Hattempt Hframe. unfold attempt, frame. rewrite Hkey. cbn [negb].
    destruct (py_index _ _); [|done|done]. cbn [bind].
    destruct (move_shape _ _); [|done|done]. cbn [bind].
    destruct (is_in_bounds _); [|done|done]. cbn [bind shapes with_shapes].
    by destruct (intersects_any _).
Qed.

Lemma settle_cases fuel context shape_type_1 shape_type_2 context' :
  settle fuel context shape_type_1 shape_type_2 = Done context' ->
  exists n shapes1 collides,
    clear_full_rows fuel (shapes context) = Done (n, shapes1)
    /\ intersects_any (shapes1 ++ [next_shape context]) = Done collides
    /\ let points1 := points context
                      + points_factor n * POINTS_PER_FULL_ROW * (level context + 1) in
       context'
       = if collides
         then mkGameContext 0 (paused context) false [get_new_shape shape_type_1]
                (get_new_shape shape_type_2) (Z.max points1 (highscore context)) 0 0
         else mkGameContext points1 (paused context) (game_started context)
                (shapes1 ++ [next_shape context]) (get_new_shape shape_type_1)
                (Z.max points1 (highscore context))
                ((cleared_rows context + n) `div` 10) (cleared_rows context + n).
Proof.
  unfold settle.
  destruct (clear_full_rows fuel (shapes context)) as [[n shapes1]| |] eqn:Hclear;
    [|done|done].
  cbn [bind]. cbn.
  destruct (intersects_any _) as [collides| |] eqn:Hcollides; [|done|done]. cbn [bind].
  intros H. exists n, shapes1, collides. split; [done|]. split; [done|].
  destruct collides; by injection H as <-.
Qed.

Lemma clear_full_rows_wf fuel shapes n shapes' :
  Forall wf_shape shapes -> clear_full_rows fuel shapes = Done (n, shapes') ->
  Forall wf_shape shapes'.
Proof.
  intros Hwf Hrun.
  destruct (clear_full_rows_loop_terminates
              (fuel + (Z.to_nat HEIGHT + total_cells shapes `div` Z.to_nat WIDTH))
              shapes 0 0 Hwf) as (k & shapes'' & Hrun' & Hwf'' & _);
    [rewrite Z.sub_0_r; lia|].
  unfold clear_full_rows in Hrun.
  apply clear_full_rows_loop_fuel_mono
    with (fuel' := (fuel + (Z.to_nat HEIGHT + total_cells shapes `div` Z.to_nat WIDTH))%nat)
    in Hrun; [|lia].
  congruence.
Qed.

(** X15: [frame] keeps a session well formed: the list of shapes stays
    non-empty and every mask, the one of the next shape included, keeps its
    16 cells. *)
Theorem frame_keeps_wf (fuel : nat) (key : Z) (context : GameContext)
    (shape_type_1 shape_type_2 : TetrisBlockShape.t) (context' : GameContext) :
  wf_context context ->
  frame fuel key context shape_type_1 shape_type_2 = Done context' ->
  wf_context context'.
Proof.
  intros Hwf Hframe.
  apply frame_cases in Hframe as [->|[(moved & Hattempt & ->)|[_ Hsettle]]]; [done| |].
  - pose proof (attempt_wf _ _ _ _ Hwf Hattempt) as Hmoved.
    destruct Hwf as (Hne & Hshapes & Hnext).
    destruct (exists_last Hne) as (l & shape & Hl).
    unfold wf_context. cbn. rewrite Hl in *. rewrite set_last_app.
    split; [by destruct l|]. split; [|done].
    apply Forall_app in Hshapes as [Hl' _]. apply Forall_app. by rewrite Forall_singleton.
  - destruct Hwf as (Hne & Hshapes & Hnext).
    apply settle_cases in Hsettle as (n & shapes1 & collides & Hclear & _ & ->).
    pose proof (clear_full_rows_wf _ _ _ _ Hshapes Hclear) as Hwf1.
    destruct collides; unfold wf_context; cbn.
    + split; [done|]. split; [|apply get_new_shape_wf].
      rewrite Forall_singleton. apply get_new_shape_wf.
    + split; [by destruct shapes1|]. split; [|apply get_new_shape_wf].
      apply Forall_app. by rewrite Forall_singleton.
Qed.

Lemma frame_keeps_wf_witness :
  wf_context landed
  /\ exists context',
       frame 21 KEY_DOWN landed TetrisBlockShape.S TetrisBlockShape.Z = Done context'
       /\ wf_context context'.
Proof.
  split; [exact landed_wf|]. eexists. split; [vm_compute; reflexivity|].
  refine (frame_keeps_wf 21 KEY_DOWN landed TetrisBlockShape.S TetrisBlockShape.Z _
            landed_wf _).
  vm_compute; reflexivity.
Defined.

(** X16: [frame] keeps level = cleared_rows // 10, never lowers the
    highscore, never touches the paused flag, and leaves the session as it
    is on a key that is no arrow key. *)
Theorem frame_keeps_level (fuel : nat) (key : Z) (context : GameContext)
    (shape_type_1 shape_type_2 : TetrisBlockShape.t) (context' : GameContext) :
  frame fuel key context shape_type_1 shape_type_2 = Done context' ->
  (level context = cleared_rows context `div` 10 ->
   level context' = cleared_rows context' `div` 10)
  /\ highscore context <= highscore context'
  /\ paused context' = paused context
  /\ (existsb (Z.eqb key) ARROW_KEYS = false -> context' = context).
Proof.
  intros Hframe.
  assert (Hother : existsb (Z.eqb key) ARROW_KEYS = false -> context' = context).
  { intros Hkey. rewrite frame_other_key in Hframe by done. congruence. }
  apply frame_cases in Hframe as [->|[(moved & Hattempt & ->)|[_ Hsettle]]].
  - split; [done|]. split; [lia|done].
  - cbn. split; [done|]. split; [lia|done].
  - apply settle_cases in Hsettle as (n & shapes1 & collides & _ & _ & ->).
    destruct collides; cbn; (split; [done|]); (split; [lia|done]).
Qed.

Lemma frame_keeps_level_witness :
  exists context',
    frame 21 KEY_DOWN (stacked 120 300) TetrisBlockShape.S TetrisBlockShape.Z
    = Done context'
    /\ highscore (stacked 120 300) <= highscore context'
    /\ paused context' = paused (stacked 120 300).
Proof.
  eexists. split; [vm_compute; reflexivity|].
  match goal with
  | |- _ <= highscore ?c /\ _ =>
      destruct (frame_keeps_level 21 KEY_DOWN (stacked 120 300)
                  TetrisBlockShape.S TetrisBlockShape.Z c) as (_ & H1 & H2 & _);
        [vm_compute; reflexivity|]
  end.
  split; [exact H1|exact H2].
Defined.

(** ** A session stays in play *)

Lemma get_new_shape_in_bounds shape_type :
  is_in_bounds (get_new_shape shape_type) = Done true.
Proof. destruct shape_type; vm_compute; reflexivity. Qed.

Lemma attempt_valid key context moved :
  attempt key context = Done (moved, true) ->
  exists l shape, shapes context = l ++ [shape]
    /\ is_in_bounds moved = Done true
    /\ intersects_any (l ++ [moved]) = Done false.
Proof.
  unfold attempt.
  destruct (py_index (shapes context) (-1)) as [shape| |] eqn:Hlast; [|done|done].
  cbn [bind]. destruct (py_index_last_inv _ _ Hlast) as [l Hl]. rewrite Hl.
  destruct (move_shape shape key) as [moved'| |]; [|done|done]. cbn [bind].
  destruct (is_in_bounds moved') as [in_bounds| |] eqn:Hin; [|done|done]. cbn [bind].
  rewrite set_last_app.
  destruct (intersects_any _) as [collides| |] eqn:Hcol; [|done|done]. cbn [bind].
  intros [= -> Hvalid]. exists l, shape.
  by destruct in_bounds, collides.
Qed.

(** The points of a session never get negative: from the start of the game
    on, the points, the level and the cleared rows are at least 0. *)
Lemma frame_keeps_not_negative (fuel : nat) (key : Z) (context : GameContext)
    (shape_type_1 shape_type_2 : TetrisBlockShape.t) (context' : GameContext) :
  wf_context context ->
  points context >= 0 -> level context >= 0 -> cleared_rows context >= 0 ->
  frame fuel key context shape_type_1 shape_type_2 = Done context' ->
  points context' >= 0 /\ level context' >= 0 /\ cleared_rows context' >= 0.
Proof.
  intros (_ & Hwf & _) Hpoints Hlevel Hrows Hframe.
  apply frame_cases in Hframe as [->|[(moved & _ & ->)|[_ Hsettle]]]; [done|done|].
  apply settle_cases in Hsettle as (n & shapes1 & collides & Hclear & _ & ->).
  destruct (clear_full_rows_loop_keeps fuel _ 0 0 n shapes1 Hwf Hclear) as [Hn _].
  assert (Hfactor : 0 <= points_factor n * POINTS_PER_FULL_ROW * (level context + 1)).
  { unfold points_factor, POINTS_PER_FULL_ROW.
    repeat (destruct (n =? _); [lia|]). lia. }
  destruct collides; cbn; [lia|].
  split; [lia|]. split; [|lia].
  apply Z.le_ge, Z.div_pos; lia.
Qed.

(** X17: [frame] keeps a session in play: if the active shape is inside
    the walls and overlaps no other shape, and the next shape is a freshly
    generated one, the same holds after the frame, whatever the key. *)
Theorem frame_keeps_playable (fuel : nat) (key : Z) (context : GameContext)
    (shape_type_1 shape_type_2 : TetrisBlockShape.t) (context' : GameContext) :
  playable context ->
  frame fuel key context shape_type_1 shape_type_2 = Done context' ->
  playable context'.
Proof.
  intros Hplay Hframe.
  apply frame_cases in Hframe as [->|[(moved & Hattempt & ->)|[_ Hsettle]]]; [done| |].
  - destruct Hplay as (_ & _ & Hnext).
    apply attempt_valid in Hattempt as (l & shape & Hl & Hin & Hcol).
    unfold playable. cbn. rewrite Hl, set_last_app.
    split; [by exists l, moved|]. by split.
  - destruct Hplay as (_ & _ & shape_type & Hnext).
    apply settle_cases in Hsettle as (n & shapes1 & collides & _ & Hcol & ->).
    destruct collides; unfold playable; cbn.
    + split; [exists [], (get_new_shape shape_type_1);
              split; [done|apply get_new_shape_in_bounds]|].
      split; [done|by exists shape_type_2].
    + split; [exists shapes1, (next_shape context);
              split; [done|rewrite Hnext; apply get_new_shape_in_bounds]|].
      split; [done|by exists shape_type_1].
Qed.

Lemma landed_playable : playable landed.
Proof.
  split; [eexists [], _; split; [reflexivity|vm_compute; reflexivity]|].
  split; [reflexivity|by exists TetrisBlockShape.I].
Qed.

Lemma frame_keeps_playable_witness :
  playable landed
  /\ exists context',
       frame 21 KEY_DOWN landed TetrisBlockShape.S TetrisBlockShape.Z = Done context'
       /\ playable context'.
Proof.
  split; [exact landed_playable|]. eexists. split; [vm_compute; reflexivity|].
  refine (frame_keeps_playable 21 KEY_DOWN landed TetrisBlockShape.S TetrisBlockShape.Z _
            landed_playable _).
  vm_compute; reflexivity.
Defined.

(** ** Start, pause and quit *)



(** X19: a pass of the game loop on a key other than q that finds the game
    paused, or not started, once the key has been taken in, runs no frame:
    the p key flips the pause, an arrow key marks the game as started, and
    everything else of the session stays. *)
Theorem run_game_pass_idle (encode : string -> list Byte.byte)
    (json_dump : gmap string Z -> string) (fuel : nat) (key : Z)
    (due : GameContext -> bool) (context : GameContext) (file : stats_file)
    (shape_type_1 shape_type_2 shape_type_3 shape_type_4 : TetrisBlockShape.t) :
  key <> ord_q ->
  (if key =? ord_p then negb (paused context) else paused context) = true
  \/ existsb (Z.eqb key) ARROW_KEYS || game_started context = false ->
  run_game_pass encode json_dump fuel key due context file
    shape_type_1 shape_type_2 shape_type_3 shape_type_4
  = Done (inl (mkGameContext (points context)
                 (if key =? ord_p then negb (paused context) else paused context)
                 (existsb (Z.eqb key) ARROW_KEYS || game_started context)
                 (shapes context) (next_shape context) (highscore context)
                 (level context) (cleared_rows context))).
Proof.
  intros Hq Hidle. unfold run_game_pass.
  destruct (Z.eqb_spec key ord_q); [done|].
  destruct (key =? ord_p), (existsb (Z.eqb key) ARROW_KEYS), context as [? [] [] ? ? ? ? ?];
    cbn in *; try reflexivity; destruct Hidle; done.
Qed.

Lemma run_game_pass_idle_witness :
  run_game_pass encode_ascii decimal_dump 21 ord_p (fun _ => true) landed Missing
    TetrisBlockShape.S TetrisBlockShape.Z TetrisBlockShape.S TetrisBlockShape.Z
  = Done (inl (mkGameContext 0 true true (shapes landed) (next_shape landed) 0 0 0)).
Proof.
  refine (run_game_pass_idle encode_ascii decimal_dump 21 ord_p (fun _ => true) landed
            Missing
            TetrisBlockShape.S TetrisBlockShape.Z TetrisBlockShape.S TetrisBlockShape.Z
            _ _).
  - discriminate.
  - left. reflexivity.
Defined.

(** ** Drawing *)

Lemma for_each_flat_map {A B : Type} (body : list B -> A -> result (list B))
    (g : A -> list B) (l : list A) (s : list B) :
  (forall s a, a ∈ l -> body s a = Done (s ++ g a)) ->
  for_each body s l = Done (s ++ flat_map g l).
Proof.
  revert s. induction l as [|a l IH]; intros s H; simpl; [by rewrite app_nil_r|].
  rewrite H by (by left). simpl. rewrite IH by (intros; apply H; by right).
  by rewrite app_assoc.
Qed.

Lemma draw_shape_cells position block color :
  wf_mask block -> draw_shape position block color = Done (shape_cells position block color).
Proof.
  intros Hwf. unfold draw_shape, shape_cells.
  rewrite for_each_flat_map with
    (g := fun x => flat_map (fun y =>
            if cell block x y
            then [(HEIGHT - (Vector2.y position + y),
                   BLOCK_WIDTH * (Vector2.x position + x + 1), color)]
            else []) (py_range 0 4)); [done|].
  intros s x Hx%elem_of_py_range. apply for_each_flat_map.
  intros s' y Hy%elem_of_py_range. rewrite py_index_cell by done. simpl.
  destruct (cell block x y); simpl; [done|by rewrite app_nil_r].
Qed.

Lemma length_one_or_none {B : Type} (b : bool) (e : B) :
  length (if b then [e] else []) = Nat.b2n b.
Proof. by destruct b. Qed.

Lemma elem_of_shape_cells (shape : TetrisBlock) (r c k : Z) :
  (r, c, k) ∈ shape_cells (position shape) (block shape) (color shape) <->
  k = color shape
  /\ exists cx cy, occupies shape cx cy = true
                   /\ r = HEIGHT - cy /\ c = BLOCK_WIDTH * (cx + 1).
Proof.
  unfold shape_cells. rewrite list_elem_of_In, in_flat_map. split.
  - intros (x & Hx%list_elem_of_In%elem_of_py_range & Hin).
    apply in_flat_map in Hin as (y & Hy%list_elem_of_In%elem_of_py_range & Hin).
    destruct (cell (block shape) x y) eqn:Hcell; [|done].
    destruct Hin as [[= <- <- <-]|[]]. split; [done|].
    exists (Vector2.x (position shape) + x), (Vector2.y (position shape) + y).
    split; [|done]. apply occupies_spec.
    replace (Vector2.x (position shape) + x - Vector2.x (position shape)) with x by lia.
    replace (Vector2.y (position shape) + y - Vector2.y (position shape)) with y by lia.
    done.
  - intros (-> & cx & cy & (Hx & Hy & Hcell)%occupies_spec & -> & ->).
    exists (cx - Vector2.x (position shape)).
    split; [by apply list_elem_of_In, elem_of_py_range_2|].
    apply in_flat_map. exists (cy - Vector2.y (position shape)).
    split; [by apply list_elem_of_In, elem_of_py_range_2|].
    rewrite Hcell. left. repeat f_equal; lia.
Qed.

(** X20: [draw_shape] makes one call for each occupied cell of the shape
    and no other: the cell at board (cx, cy) is drawn in the colour of the
    shape at screen row HEIGHT - cy and column BLOCK_WIDTH * (cx + 1). *)
Theorem draw_shape_draws_cells (shape : TetrisBlock) :
  wf_shape shape ->
  exists screen,
    draw_shape (position shape) (block shape) (color shape) = Done screen
    /\ length screen = count_cells (block shape)
    /\ forall r c k,
         (r, c, k) ∈ screen <->
         k = color shape
         /\ exists cx cy, occupies shape cx cy = true
                          /\ r = HEIGHT - cy /\ c = BLOCK_WIDTH * (cx + 1).
Proof.
  intros Hwf. exists (shape_cells (position shape) (block shape) (color shape)).
  split; [by apply draw_shape_cells|]. split; [|apply elem_of_shape_cells].
  destruct shape as [pos m k]. simpl. unfold wf_shape in Hwf. simpl in Hwf.
  destruct_mask m Hwf. unfold shape_cells, count_cells. rewrite py_range_4.
  cbn [flat_map sum_list_with]. rewrite !length_app, !length_one_or_none.
  unfold cell.
  repeat match goal with
         | |- context [py_index ?l (index_bm ?x ?y)] =>
             let v := eval vm_compute in (py_index l (index_bm x y)) in
             change (py_index l (index_bm x y)) with v
         end.
  cbv iota. simpl length. lia.
Qed.

Lemma draw_shape_draws_cells_witness :
  wf_shape left_I
  /\ exists screen,
       draw_shape (position left_I) (block left_I) (color left_I) = Done screen
       /\ length screen = count_cells (block left_I).
Proof.
  split; [reflexivity|].
  destruct (draw_shape_draws_cells left_I eq_refl) as (screen & H1 & H2 & _).
  exists screen. split; [exact H1|exact H2].
Defined.

Lemma draw_borders_frame :
  Forall (fun '(r, c, k) =>
            (r = 0 \/ r = HEIGHT + 1 \/ c = 0 \/ c = BLOCK_WIDTH * (WIDTH + 1))
            /\ 0 <= r <= HEIGHT + 1 /\ 0 <= c <= BLOCK_WIDTH * (WIDTH + 1) /\ k = 7)
         draw_borders.
Proof.
  set (calls := draw_borders). vm_compute in (value of calls). subst calls.
  unfold HEIGHT, WIDTH, BLOCK_WIDTH. repeat (constructor; [lia|]). constructor.
Qed.

(** X21: a shape that is in bounds and has no cell above the board is
    drawn strictly inside the border: its calls are at rows 1 .. HEIGHT
    and leave BLOCK_WIDTH columns free on both sides, where every call of
    [draw_borders] is in row 0 or HEIGHT + 1 or in column 0 or
    BLOCK_WIDTH * (WIDTH + 1). *)
Theorem draw_shape_inside_borders (shape : TetrisBlock) (screen : list (Z * Z * Z)) :
  wf_shape shape ->
  is_in_bounds shape = Done true ->
  (forall cx cy, occupies shape cx cy = true -> cy < HEIGHT) ->
  draw_shape (position shape) (block shape) (color shape) = Done screen ->
  (forall r c k, (r, c, k) ∈ screen ->
     1 <= r <= HEIGHT
     /\ BLOCK_WIDTH <= c /\ c + BLOCK_WIDTH <= BLOCK_WIDTH * (WIDTH + 1))
  /\ (forall r c k, (r, c, k) ∈ draw_borders ->
        r = 0 \/ r = HEIGHT + 1 \/ c = 0 \/ c = BLOCK_WIDTH * (WIDTH + 1))
  /\ forall r c k k', (r, c, k) ∈ screen -> (r, c, k') ∈ draw_borders -> False.
Proof.
  intros Hwf Hin Htop Hdraw.
  destruct (is_in_bounds_iff shape Hwf) as (b & Hb & Hspec).
  assert (b = true) as -> by congruence.
  rewrite draw_shape_cells in Hdraw by done. injection Hdraw as Hscreen.
  assert (Hcells : forall r c k,
            (r, c, k) ∈ screen <->
            k = color shape
            /\ exists cx cy, occupies shape cx cy = true
                             /\ r = HEIGHT - cy /\ c = BLOCK_WIDTH * (cx + 1))
    by (intros r c k; rewrite <- Hscreen; apply elem_of_shape_cells).
  assert (Hinside : forall r c k, (r, c, k) ∈ screen ->
            1 <= r <= HEIGHT
            /\ BLOCK_WIDTH <= c /\ c + BLOCK_WIDTH <= BLOCK_WIDTH * (WIDTH + 1)).
  { intros r c k (_ & cx & cy & Hocc & -> & ->)%Hcells.
    pose proof (Htop _ _ Hocc). apply (proj1 Hspec eq_refl) in Hocc.
    unfold BLOCK_WIDTH, WIDTH, HEIGHT in *. lia. }
  assert (Hborder : forall r c k, (r, c, k) ∈ draw_borders ->
            r = 0 \/ r = HEIGHT + 1 \/ c = 0 \/ c = BLOCK_WIDTH * (WIDTH + 1)).
  { intros r c k Hel.
    pose proof (proj1 (Forall_forall _ _) draw_borders_frame _ Hel) as H. simpl in H.
    tauto. }
  split; [exact Hinside|]. split; [exact Hborder|].
  intros r c k k' H1%Hinside H2%Hborder.
  unfold BLOCK_WIDTH, WIDTH, HEIGHT in *. lia.
Qed.

Lemma draw_shape_inside_borders_witness :
  exists screen,
    draw_shape (position left_I) (block left_I) (color left_I) = Done screen
    /\ forall r c k k', (r, c, k) ∈ screen -> (r, c, k') ∈ draw_borders -> False.
Proof.
  eexists. split; [vm_compute; reflexivity|].
  refine (proj2 (proj2 (draw_shape_inside_borders left_I _ eq_refl _ _ _))).
  - vm_compute; reflexivity.
  - intros cx cy (_ & Hy & _)%occupies_spec. unfold HEIGHT. simpl in Hy. lia.
  - vm_compute; reflexivity.
Defined.

(** ** When [clear_full_rows] returns 0 *)

Lemma clear_full_rows_loop_counts fuel :
  forall shapes row n n' shapes' r,
    Forall wf_shape shapes ->
    row <= r < HEIGHT -> row_full shapes r = true ->
    clear_full_rows_loop fuel shapes row n = Done (n', shapes') ->
    n + 1 <= n'.
Proof.
  induction fuel as [|fuel IH]; intros shapes row n n' shapes' r Hwf Hr Hfull Hrun.
  - simpl in Hrun. destruct (Z.ltb_spec row HEIGHT); [done|lia].
  - cbn [clear_full_rows_loop] in Hrun.
    destruct (Z.ltb_spec row HEIGHT); [|lia]. cbn [negb] in Hrun.
    rewrite categorize_all_spec in Hrun by done. cbn [bind] in Hrun.
    rewrite scan_full_iff in Hrun.
    destruct (row_full shapes row) eqn:Hrow; cbn [negb] in Hrun.
    + rewrite clear_step in Hrun by done. cbn [bind] in Hrun.
      apply clear_full_rows_loop_keeps in Hrun as [Hn _]; [lia|].
      apply Forall_fmap. eapply Forall_impl; [exact Hwf|].
      intros shape. apply clear_shape_wf.
    + eapply IH; [exact Hwf| |exact Hfull|exact Hrun].
      destruct (decide (r = row)) as [->|?]; [congruence|lia].
Qed.

(** X22: [clear_full_rows] returns 0 exactly when no row of the board is
    full, and then the shapes are as they were; with a full row on the
    board it returns at least 1. *)
Theorem clear_full_rows_zero_iff (fuel : nat) (shapes : list TetrisBlock)
    (n : Z) (shapes' : list TetrisBlock) :
  Forall wf_shape shapes ->
  clear_full_rows fuel shapes = Done (n, shapes') ->
  (n = 0 <-> forall row, 0 <= row < HEIGHT -> row_full shapes row = false)
  /\ (n = 0 -> shapes' = shapes)
  /\ 0 <= n.
Proof.
  intros Hwf Hrun.
  assert (Hn : 0 <= n)
    by (by destruct (clear_full_rows_loop_keeps fuel shapes 0 0 n shapes' Hwf Hrun)).
  assert (Hnone : (forall row, 0 <= row < HEIGHT -> row_full shapes row = false) ->
                  n = 0 /\ shapes' = shapes).
  { intros Hfull.
    pose proof (clear_full_rows_loop_no_full_row shapes Hwf Hfull
                  (fuel + Z.to_nat HEIGHT) 0 0) as Hrun'.
    unfold clear_full_rows in Hrun.
    apply clear_full_rows_loop_fuel_mono with (fuel' := (fuel + Z.to_nat HEIGHT)%nat)
      in Hrun; [|lia].
    rewrite Hrun' in Hrun by lia. by injection Hrun as <- <-. }
  assert (Hzero : n = 0 -> forall row, 0 <= row < HEIGHT -> row_full shapes row = false).
  { intros -> row Hrow. destruct (row_full shapes row) eqn:Hfull; [|done].
    pose proof (clear_full_rows_loop_counts fuel shapes 0 0 0 shapes' row Hwf) as H.
    unfold clear_full_rows in Hrun. specialize (H ltac:(lia) Hfull Hrun). lia. }
  split; [split; [exact Hzero|intros H; by apply Hnone]|].
  split; [|done]. intros H0. by apply Hnone, Hzero.
Qed.

Lemma clear_full_rows_zero_iff_witness :
  Forall wf_shape floor_of_I
  /\ exists n shapes',
       clear_full_rows 22 floor_of_I = Done (n, shapes')
       /\ (n = 0 <-> forall row, 0 <= row < HEIGHT -> row_full floor_of_I row = false).
Proof.
  split; [exact floor_of_I_wf|].
  assert (Hrun : clear_full_rows 22 floor_of_I
                 = Done (1, map (clear_shape 0) floor_of_I)) by (vm_compute; reflexivity).
  exists 1, (map (clear_shape 0) floor_of_I). split; [exact Hrun|].
  exact (proj1 (clear_full_rows_zero_iff 22 floor_of_I _ _ floor_of_I_wf Hrun)).
Defined.
